(** * Outline front end: paginated document list and document scene

    A shallow embedding of
    - [app/components/PaginatedDocumentList.js] (module [PaginatedDocumentList]),
    - [app/scenes/Document/Document.js]         (module [DocumentScene]),
    together with the properties of their cursor and load/edit/save logic.

    Conventions.  Observable fields of a component are fields of a record;
    every method is a function on that record.  An [async] method is split at
    each [await]: the part that runs synchronously when the method is called,
    and the continuation that runs when the awaited promise settles.  Calls
    into collaborators (the injected fetch function, the router history, the
    UI store, timers, the document's save operation) are appended to a log
    kept in the record, so that "nothing was dispatched" is a statement about
    that log. *)

From stdpp Require Import gmap strings list fin_maps.
From Stdlib Require Import NArith.

Open Scope nat_scope.

(** ** JavaScript values shared by both components *)

Module JS.

(** A string is its sequence of UTF-16 code units. *)
Definition jsstring : Type := list N.

Definition lit (s : string) : jsstring :=
  (λ a, Ascii.N_of_ascii a) <$> String.list_ascii_of_string s.

(** [a === b] on strings. *)
Definition strict_eq (a b : jsstring) : bool := bool_decide (a = b).

(** ECMAScript WhiteSpace and LineTerminator code points, the ones
    [String.prototype.trim] strips. *)
Definition isWhiteSpace (c : N) : bool :=
  bool_decide (c ∈ [9; 11; 12; 32; 160; 5760; 8239; 8287; 12288; 65279]%N)
  || ((8192 <=? c)%N && (c <=? 8202)%N).

Definition isLineTerminator (c : N) : bool :=
  bool_decide (c ∈ [10; 13; 8232; 8233]%N).

Definition isTrimmed (c : N) : bool := isWhiteSpace c || isLineTerminator c.

Fixpoint trimStart (s : jsstring) : jsstring :=
  match s with
  | c :: s' => if isTrimmed c then trimStart s' else s
  | [] => []
  end.

Definition trimEnd (s : jsstring) : jsstring := rev (trimStart (rev s)).

Definition trim (s : jsstring) : jsstring := trimEnd (trimStart s).

(** Values an options object can hold. *)
Inductive value : Type :=
| VUndefined
| VBool (b : bool)
| VNum (n : nat)
| VStr (s : jsstring).

(** Truthiness of an optional string ([undefined], [null] and the empty
    string are falsy). *)
Definition truthy_string (o : option jsstring) : bool :=
  match o with
  | Some (_ :: _) => true
  | _ => false
  end.

(** Truthiness of an optional boolean flag. *)
Definition truthy_flag (o : option bool) : bool :=
  match o with
  | Some true => true
  | _ => false
  end.

(** The outcome of an awaited promise. *)
Inductive settled (A E : Type) : Type :=
| Resolved (a : A)
| Rejected (err : E).
Arguments Resolved {A E} a.
Arguments Rejected {A E} err.

End JS.

(** ** app/components/PaginatedDocumentList.js *)

Module PaginatedDocumentList.
Import JS.

(** What the promise returned by [props.fetch] resolves to: the type is
    [Promise<*>], the code tests the value for truthiness and then reads
    its [length]. *)
Inductive results (Item : Type) : Type :=
| Falsy
| Items (l : list Item).
Arguments Falsy {Item}.
Arguments Items {Item} l.

(** [props.fetch] is compared by reference, so a fetch function is its
    identity; [options] is an optional plain object. *)
Record Props : Type := {
  fetch : nat;
  options : option (gmap string value);
}.

(** One call [this.props.fetch(args)]. *)
Record call : Type := {
  callee : nat;
  args : gmap string value;
}.

(** The component instance: its four observable fields, its current props,
    the calls made to the injected fetch function so far, and the number of
    [fetchResults] activations suspended at their [await]. *)
Record t : Type := {
  isLoaded : bool;
  isFetching : bool;
  offset : nat;
  allowLoadMore : bool;
  props : Props;
  calls : list call;
  awaiting : nat;
}.

(** Field initialisers of the class. *)
Definition initial (p : Props) : t :=
  {| isLoaded := false; isFetching := false; offset := 0;
     allowLoadMore := true; props := p; calls := []; awaiting := 0 |}.

Section Loader.

(** [DEFAULT_PAGINATION_LIMIT] is imported from [stores/BaseStore]. *)
Variable DEFAULT_PAGINATION_LIMIT : nat.
Variable Item : Type.

(** [{ limit, offset: this.offset, ...this.props.options }]: the entries
    of [options] are spread last, so they win. *)
Definition fetch_args (off : nat) (opts : option (gmap string value))
  : gmap string value :=
  default ∅ opts
    ∪ <["limit" := VNum DEFAULT_PAGINATION_LIMIT]> {["offset" := VNum off]}.

(** [results && (results.length === 0 ||
                 results.length < DEFAULT_PAGINATION_LIMIT)] *)
Definition endOfData (r : results Item) : bool :=
  match r with
  | Falsy => false
  | Items l =>
      (length l =? 0) || (length l <? DEFAULT_PAGINATION_LIMIT)
  end.

(** [fetchResults], up to its [await]. *)
Definition fetchResults_call (s : t) : t :=
  {| isLoaded := isLoaded s;
     isFetching := true;
     offset := offset s;
     allowLoadMore := allowLoadMore s;
     props := props s;
     calls := calls s ++
       [{| callee := fetch (props s);
           args := fetch_args (offset s) (options (props s)) |}];
     awaiting := S (awaiting s) |}.

(** [fetchResults], from the point where the promise has resolved. *)
Definition fetchResults_resume (r : results Item) (s : t) : t :=
  {| isLoaded := true;
     isFetching := false;
     offset :=
       if endOfData r then offset s
       else offset s + DEFAULT_PAGINATION_LIMIT;
     allowLoadMore := if endOfData r then false else allowLoadMore s;
     props := props s;
     calls := calls s;
     awaiting := pred (awaiting s) |}.

(** A fetch step: [fetchResults] run from call to completion, the promise
    resolving to [r]. *)
Definition fetchResults (r : results Item) (s : t) : t :=
  fetchResults_resume r (fetchResults_call s).

(** [loadMoreResults], up to the [await] inside [fetchResults]. *)
Definition loadMoreResults (s : t) : t :=
  if negb (allowLoadMore s) || isFetching s then s
  else fetchResults_call s.

Definition componentDidMount (s : t) : t := fetchResults_call s.

Definition componentDidUpdate (prevProps : Props) (s : t) : t :=
  if bool_decide (fetch prevProps ≠ fetch (props s))
  then fetchResults_call s
  else s.

Definition setProps (p : Props) (s : t) : t :=
  {| isLoaded := isLoaded s; isFetching := isFetching s;
     offset := offset s; allowLoadMore := allowLoadMore s;
     props := p; calls := calls s; awaiting := awaiting s |}.

(** [fetchResults] when the promise rejects: the activation ends at the
    [await], with no assignment made. *)
Definition fetchResults_abort (s : t) : t :=
  {| isLoaded := isLoaded s; isFetching := isFetching s;
     offset := offset s; allowLoadMore := allowLoadMore s;
     props := props s; calls := calls s; awaiting := pred (awaiting s) |}.

(** What can happen to a component: it is mounted, the parent re-renders it
    with new props, the waypoint is entered, or a pending fetch settles.  A
    settlement with nothing pending is not an event of the component and is
    ignored. *)
Inductive event : Type :=
| Mount
| Rerender (p : Props)
| WaypointEnter
| FetchResolved (r : results Item)
| FetchRejected.

Definition step (e : event) (s : t) : t :=
  match e with
  | Mount => componentDidMount s
  | Rerender p => componentDidUpdate (props s) (setProps p s)
  | WaypointEnter => loadMoreResults s
  | FetchResolved r =>
      match awaiting s with
      | 0 => s
      | S _ => fetchResults_resume r s
      end
  | FetchRejected => fetchResults_abort s
  end.

Fixpoint run (evs : list event) (s : t) : t :=
  match evs with
  | [] => s
  | e :: evs' => run evs' (step e s)
  end.

(** The calls made by an operation: what it appended to the log. *)
Definition dispatched (s s' : t) : list call :=
  drop (length (calls s)) (calls s').

End Loader.

Arguments event Item : clear implicits.
Arguments endOfData _ {Item} r.
Arguments fetchResults_resume _ {Item} r s.
Arguments fetchResults _ {Item} r s.
Arguments step _ {Item} e s.
Arguments run _ {Item} evs s.
Arguments Mount {Item}.
Arguments Rerender {Item} p.
Arguments WaypointEnter {Item}.
Arguments FetchResolved {Item} r.
Arguments FetchRejected {Item}.

(** A page of [n] items. *)
Definition page (n : nat) : results nat := Items (seq 0 n).

Definition someProps : Props := {| fetch := 1; options := None |}.
Definition otherProps : Props := {| fetch := 2; options := None |}.

(** Page size 10, pages of 10, 10 and 4 items, each further page asked for
    by the waypoint. *)
Definition scenario : list (event nat) :=
  [Mount; FetchResolved (page 10);
   WaypointEnter; FetchResolved (page 10);
   WaypointEnter; FetchResolved (page 4)].

End PaginatedDocumentList.

(** ** models/Document and models/Revision: the fields the scene reads *)

Module Document.
Import JS.

Record t : Type := {
  id : option jsstring;
  text : jsstring;
  url : jsstring;
  isSaving : bool;
  isArchived : bool;
  publishedAt : option jsstring;
}.

(** [document.text = text] *)
Definition set_text (x : jsstring) (d : t) : t :=
  {| id := id d; text := x; url := url d; isSaving := isSaving d;
     isArchived := isArchived d; publishedAt := publishedAt d |}.

End Document.

Module Revision.
Import JS.

Record t : Type := { id : jsstring }.

End Revision.

(** ** app/scenes/Document/Document.js *)

Module DocumentScene.
Import JS.

Definition AUTOSAVE_DELAY : nat := 3000.
Definition IS_DIRTY_DELAY : nat := 500.
Definition MARK_AS_VIEWED_AFTER : nat := 3000.

Definition Error : Type := jsstring.

(** [props.match.params], [props.match], and the parts of [props] that the
    scene's logic reads: the route match, [location.pathname] and
    [auth.user]. *)
Record Params : Type := {
  documentSlug : jsstring;
  shareId : option jsstring;
  revisionId : option jsstring;
}.

Record Match : Type := {
  path : jsstring;
  url : jsstring;
  params : Params;
}.

Record Props : Type := {
  match_ : Match;
  pathname : jsstring;
  user : option jsstring;
}.

(** [options : { done?: boolean, publish?: boolean, autosave?: boolean }] *)
Record SaveOptions : Type := {
  done : option bool;
  publish : option bool;
  autosave : option bool;
}.

(** The callback handed to [setTimeout]: [document.view]. *)
Inductive callback : Type :=
| DocumentView (d : Document.t).

(** Calls into the collaborators of the scene, in program order. *)
Inductive effect : Type :=
| DocumentsFetch (slug : jsstring) (share : option jsstring)
| RevisionsFetch (slug : jsstring) (rev : option jsstring)
| SetActiveDocument (d : Document.t)
| HistoryPush (to : jsstring)
| HistoryReplace (to : jsstring)
| SetTimeout (cb : callback) (delay : nat)
| DocumentSave (d : Document.t) (options : SaveOptions).

(** The scene instance.  [getEditorText] holds the text the editor's
    callback returns when called ([None] until [onChange] has stored a
    callback); [viewTimeout] is the position of the [SetTimeout] call in
    the log; [suspended] are the activations of [onSave] waiting for
    [document.save] to settle, each with its [options] and [isNew];
    [clock] is the time in ms, and each of the two debounced methods has
    the time of its last call while a trailing invocation is pending. *)
Record t : Type := {
  document : option Document.t;
  revision : option Revision.t;
  isUploading : bool;
  isSaving : bool;
  isPublishing : bool;
  isDirty : bool;
  isEmpty : bool;
  error : option Error;
  getEditorText : option jsstring;
  viewTimeout : option nat;
  props : Props;
  effects : list effect;
  suspended : list (SaveOptions * bool);
  clock : nat;
  updateIsDirty_timer : option nat;
  autosave_timer : option nat;
}.

Definition set_document (x : option Document.t) (s : t) : t :=
  {| document := x; revision := revision s; isUploading := isUploading s;
     isSaving := isSaving s; isPublishing := isPublishing s;
     isDirty := isDirty s; isEmpty := isEmpty s; error := error s;
     getEditorText := getEditorText s; viewTimeout := viewTimeout s;
     props := props s; effects := effects s; suspended := suspended s;
     clock := clock s; updateIsDirty_timer := updateIsDirty_timer s;
     autosave_timer := autosave_timer s |}.

Definition set_revision (x : option Revision.t) (s : t) : t :=
  {| document := document s; revision := x; isUploading := isUploading s;
     isSaving := isSaving s; isPublishing := isPublishing s;
     isDirty := isDirty s; isEmpty := isEmpty s; error := error s;
     getEditorText := getEditorText s; viewTimeout := viewTimeout s;
     props := props s; effects := effects s; suspended := suspended s;
     clock := clock s; updateIsDirty_timer := updateIsDirty_timer s;
     autosave_timer := autosave_timer s |}.

Definition set_isUploading (x : bool) (s : t) : t :=
  {| document := document s; revision := revision s; isUploading := x;
     isSaving := isSaving s; isPublishing := isPublishing s;
     isDirty := isDirty s; isEmpty := isEmpty s; error := error s;
     getEditorText := getEditorText s; viewTimeout := viewTimeout s;
     props := props s; effects := effects s; suspended := suspended s;
     clock := clock s; updateIsDirty_timer := updateIsDirty_timer s;
     autosave_timer := autosave_timer s |}.

Definition set_isSaving (x : bool) (s : t) : t :=
  {| document := document s; revision := revision s;
     isUploading := isUploading s; isSaving := x;
     isPublishing := isPublishing s; isDirty := isDirty s;
     isEmpty := isEmpty s; error := error s;
     getEditorText := getEditorText s; viewTimeout := viewTimeout s;
     props := props s; effects := effects s; suspended := suspended s;
     clock := clock s; updateIsDirty_timer := updateIsDirty_timer s;
     autosave_timer := autosave_timer s |}.

Definition set_isPublishing (x : bool) (s : t) : t :=
  {| document := document s; revision := revision s;
     isUploading := isUploading s; isSaving := isSaving s;
     isPublishing := x; isDirty := isDirty s; isEmpty := isEmpty s;
     error := error s; getEditorText := getEditorText s;
     viewTimeout := viewTimeout s; props := props s; effects := effects s;
     suspended := suspended s; clock := clock s;
     updateIsDirty_timer := updateIsDirty_timer s;
     autosave_timer := autosave_timer s |}.

Definition set_isDirty (x : bool) (s : t) : t :=
  {| document := document s; revision := revision s;
     isUploading := isUploading s; isSaving := isSaving s;
     isPublishing := isPublishing s; isDirty := x; isEmpty := isEmpty s;
     error := error s; getEditorText := getEditorText s;
     viewTimeout := viewTimeout s; props := props s; effects := effects s;
     suspended := suspended s; clock := clock s;
     updateIsDirty_timer := updateIsDirty_timer s;
     autosave_timer := autosave_timer s |}.

Definition set_isEmpty (x : bool) (s : t) : t :=
  {| document := document s; revision := revision s;
     isUploading := isUploading s; isSaving := isSaving s;
     isPublishing := isPublishing s; isDirty := isDirty s; isEmpty := x;
     error := error s; getEditorText := getEditorText s;
     viewTimeout := viewTimeout s; props := props s; effects := effects s;
     suspended := suspended s; clock := clock s;
     updateIsDirty_timer := updateIsDirty_timer s;
     autosave_timer := autosave_timer s |}.

Definition set_error (x : option Error) (s : t) : t :=
  {| document := document s; revision := revision s;
     isUploading := isUploading s; isSaving := isSaving s;
     isPublishing := isPublishing s; isDirty := isDirty s;
     isEmpty := isEmpty s; error := x; getEditorText := getEditorText s;
     viewTimeout := viewTimeout s; props := props s; effects := effects s;
     suspended := suspended s; clock := clock s;
     updateIsDirty_timer := updateIsDirty_timer s;
     autosave_timer := autosave_timer s |}.

Definition set_getEditorText (x : option jsstring) (s : t) : t :=
  {| document := document s; revision := revision s;
     isUploading := isUploading s; isSaving := isSaving s;
     isPublishing := isPublishing s; isDirty := isDirty s;
     isEmpty := isEmpty s; error := error s; getEditorText := x;
     viewTimeout := viewTimeout s; props := props s; effects := effects s;
     suspended := suspended s; clock := clock s;
     updateIsDirty_timer := updateIsDirty_timer s;
     autosave_timer := autosave_timer s |}.

Definition set_viewTimeout (x : option nat) (s : t) : t :=
  {| document := document s; revision := revision s;
     isUploading := isUploading s; isSaving := isSaving s;
     isPublishing := isPublishing s; isDirty := isDirty s;
     isEmpty := isEmpty s; error := error s;
     getEditorText := getEditorText s; viewTimeout := x; props := props s;
     effects := effects s; suspended := suspended s; clock := clock s;
     updateIsDirty_timer := updateIsDirty_timer s;
     autosave_timer := autosave_timer s |}.

Definition set_effects (x : list effect) (s : t) : t :=
  {| document := document s; revision := revision s;
     isUploading := isUploading s; isSaving := isSaving s;
     isPublishing := isPublishing s; isDirty := isDirty s;
     isEmpty := isEmpty s; error := error s;
     getEditorText := getEditorText s; viewTimeout := viewTimeout s;
     props := props s; effects := x; suspended := suspended s;
     clock := clock s; updateIsDirty_timer := updateIsDirty_timer s;
     autosave_timer := autosave_timer s |}.

Definition set_suspended (x : list (SaveOptions * bool)) (s : t) : t :=
  {| document := document s; revision := revision s;
     isUploading := isUploading s; isSaving := isSaving s;
     isPublishing := isPublishing s; isDirty := isDirty s;
     isEmpty := isEmpty s; error := error s;
     getEditorText := getEditorText s; viewTimeout := viewTimeout s;
     props := props s; effects := effects s; suspended := x;
     clock := clock s; updateIsDirty_timer := updateIsDirty_timer s;
     autosave_timer := autosave_timer s |}.

Definition set_clock (x : nat) (s : t) : t :=
  {| document := document s; revision := revision s;
     isUploading := isUploading s; isSaving := isSaving s;
     isPublishing := isPublishing s; isDirty := isDirty s;
     isEmpty := isEmpty s; error := error s;
     getEditorText := getEditorText s; viewTimeout := viewTimeout s;
     props := props s; effects := effects s; suspended := suspended s;
     clock := x; updateIsDirty_timer := updateIsDirty_timer s;
     autosave_timer := autosave_timer s |}.

Definition set_updateIsDirty_timer (x : option nat) (s : t) : t :=
  {| document := document s; revision := revision s;
     isUploading := isUploading s; isSaving := isSaving s;
     isPublishing := isPublishing s; isDirty := isDirty s;
     isEmpty := isEmpty s; error := error s;
     getEditorText := getEditorText s; viewTimeout := viewTimeout s;
     props := props s; effects := effects s; suspended := suspended s;
     clock := clock s; updateIsDirty_timer := x;
     autosave_timer := autosave_timer s |}.

Definition set_autosave_timer (x : option nat) (s : t) : t :=
  {| document := document s; revision := revision s;
     isUploading := isUploading s; isSaving := isSaving s;
     isPublishing := isPublishing s; isDirty := isDirty s;
     isEmpty := isEmpty s; error := error s;
     getEditorText := getEditorText s; viewTimeout := viewTimeout s;
     props := props s; effects := effects s; suspended := suspended s;
     clock := clock s; updateIsDirty_timer := updateIsDirty_timer s;
     autosave_timer := x |}.

Definition emit (e : effect) (s : t) : t := set_effects (effects s ++ [e]) s.

(** The calls an operation made: what it appended to the log. *)
Definition emitted (s s' : t) : list effect :=
  drop (length (effects s)) (effects s').

(** Field initialisers of the class, and the first statement of the
    constructor: [this.document = props.documents.getByUrl(slug)]. *)
Definition initial (p : Props) (cached : option Document.t) : t :=
  {| document := cached; revision := None; isUploading := false;
     isSaving := false; isPublishing := false; isDirty := false;
     isEmpty := true; error := None; getEditorText := None;
     viewTimeout := None; props := p; effects := []; suspended := [];
     clock := 0; updateIsDirty_timer := None; autosave_timer := None |}.

(** [s.endsWith(suffix)], which is what [s.match(/move$/)] tests. *)
Definition endsWith (s suffix : jsstring) : bool :=
  (length suffix <=? length s)
  && strict_eq (drop (length s - length suffix) s) suffix.

Section Scene.

(** Imported from [utils/routeHelpers]. *)
Variable matchDocumentEdit : jsstring.
Variable documentEditUrl : Document.t → jsstring.
Variable updateDocumentUrl : jsstring → jsstring → jsstring.

(** [get isEditing()] *)
Definition isEditing (s : t) : bool :=
  strict_eq (path (match_ (props s))) matchDocumentEdit
  || match document s with
     | Some d => negb (truthy_string (Document.id d))
     | None => false
     end.

Definition goToDocumentCanonical (s : t) : t :=
  match document s with
  | Some d => emit (HistoryPush (Document.url d)) s
  | None => s
  end.

(** *** loadDocument *)

(** Up to the first [await]. *)
Definition loadDocument_call (p : Props) (s : t) : t :=
  emit (DocumentsFetch (documentSlug (params (match_ p)))
                       (shareId (params (match_ p)))) s.

(** After the [try] block. *)
Definition loadDocument_loaded (p : Props) (s : t) : t :=
  let s := set_isEmpty false (set_isDirty false s) in
  match document s with
  | None => s
  | Some d =>
      let s := emit (SetActiveDocument d) s in
      if Document.isArchived d && isEditing s
      then goToDocumentCanonical s
      else if bool_decide (is_Some (user (props s)))
              && negb (truthy_string (shareId (params (match_ p))))
      then
        let s :=
          if negb (isEditing s) && truthy_string (Document.publishedAt d)
          then set_viewTimeout (Some (length (effects s)))
                 (emit (SetTimeout (DocumentView d) MARK_AS_VIEWED_AFTER) s)
          else s in
        let isMove := endsWith (pathname p) (lit "move") in
        let canRedirect :=
          negb (bool_decide (is_Some (revision s))) && negb isMove in
        if canRedirect
        then
          let canonicalUrl :=
            updateDocumentUrl (url (match_ p)) (Document.url d) in
          if negb (strict_eq (pathname p) canonicalUrl)
          then emit (HistoryReplace canonicalUrl) s
          else s
        else s
      else s
  end.

(** From the point where [revisions.fetch] has settled. *)
Definition loadDocument_revision (p : Props)
    (rev : settled (option Revision.t) Error) (s : t) : t :=
  match rev with
  | Rejected err => set_error (Some err) s
  | Resolved r => loadDocument_loaded p (set_revision r s)
  end.

(** From the point where [documents.fetch] has settled, up to the second
    [await] if there is a revision id, to the end otherwise. *)
Definition loadDocument_fetched (p : Props)
    (doc : settled (option Document.t) Error) (s : t) : t + t :=
  match doc with
  | Rejected err => inl (set_error (Some err) s)
  | Resolved d =>
      let s := set_document d s in
      if truthy_string (revisionId (params (match_ p)))
      then inr (emit (RevisionsFetch (documentSlug (params (match_ p)))
                                     (revisionId (params (match_ p)))) s)
      else inl (loadDocument_loaded p (set_revision None s))
  end.

(** A load: [loadDocument(props)] run from call to completion, the two
    store fetches settling as [doc] and [rev] ([rev] is consulted only
    when the second fetch is made). *)
Definition loadDocument (p : Props)
    (doc : settled (option Document.t) Error)
    (rev : settled (option Revision.t) Error) (s : t) : t :=
  match loadDocument_fetched p doc (loadDocument_call p s) with
  | inl s' => s'
  | inr s' => loadDocument_revision p rev s'
  end.

(** *** onSave *)

(** Where the synchronous part of [onSave] ends: at a [return], or at
    [await document.save(options)] holding [isNew]. *)
Inductive started : Type :=
| Returned (s : t)
| Awaiting (isNew : bool) (s : t).

(** [this.getEditorText ? this.getEditorText() : document.text] *)
Definition currentText (s : t) (d : Document.t) : jsstring :=
  match getEditorText s with
  | Some txt => txt
  | None => Document.text d
  end.

Definition onSave_call (options : SaveOptions) (s : t) : started :=
  match document s with
  | None => Returned s
  | Some d =>
      if Document.isSaving d then Returned s
      else
        let text := currentText s d in
        if strict_eq (trim text) (lit "#") then Returned s
        else if truthy_flag (autosave options)
                && strict_eq (trim (Document.text d)) (trim text)
        then Returned s
        else
          let d := Document.set_text text d in
          let isNew := negb (truthy_string (Document.id d)) in
          Awaiting isNew
            (emit (DocumentSave d options)
               (set_isPublishing (truthy_flag (publish options))
                  (set_isSaving true (set_document (Some d) s))))
  end.

(** From the point where [document.save(options)] has resolved to
    [saved]. *)
Definition onSave_resume (options : SaveOptions) (isNew : bool)
    (saved : Document.t) (s : t) : t :=
  let s := set_isPublishing false (set_isSaving false (set_isDirty false s)) in
  if truthy_flag (done options)
  then emit (SetActiveDocument saved) (emit (HistoryPush (Document.url saved)) s)
  else if isNew
  then emit (SetActiveDocument saved) (emit (HistoryPush (documentEditUrl saved)) s)
  else s.

(** [onSave] as an operation of the scene: a suspended activation is
    recorded so that it can be resumed when the save settles. *)
Definition onSave (options : SaveOptions) (s : t) : t :=
  match onSave_call options s with
  | Returned s' => s'
  | Awaiting isNew s' => set_suspended (suspended s' ++ [(options, isNew)]) s'
  end.

(** *** The debounced methods and onChange *)

(** The function wrapped by [autosave]. *)
Definition autosave_body (s : t) : t :=
  onSave {| done := Some false; publish := None; autosave := Some true |} s.

(** The function wrapped by [updateIsDirty]; [None] when
    [this.getEditorText] is not yet a function and the call throws. *)
Definition updateIsDirty_body (s : t) : option t :=
  match getEditorText s with
  | None => None
  | Some txt =>
      let editorText := trim txt in
      let s := set_isEmpty (strict_eq editorText (lit "#")) s in
      Some (set_isDirty
              match document s with
              | Some d => negb (strict_eq editorText (trim (Document.text d)))
              | None => false
              end s)
  end.

(** [onChange(getEditorText)]: store the callback, then call the two
    debounced methods, which records the time of the call. *)
Definition onChange (txt : jsstring) (s : t) : t :=
  set_autosave_timer (Some (clock s))
    (set_updateIsDirty_timer (Some (clock s))
       (set_getEditorText (Some txt) s)).

(** [debounce(f, wait)], trailing edge: when its timer expires, [f] runs
    if at least [wait] ms have passed since the last call; otherwise the
    timer is re-armed for the remainder. *)
Definition due (wait : nat) (timer : option nat) (now : nat) : bool :=
  match timer with
  | Some lastCall => lastCall + wait <=? now
  | None => false
  end.

(** Whether an expiry of the dirty-check timer now runs the check. *)
Definition updateIsDirty_due (s : t) : bool :=
  due IS_DIRTY_DELAY (updateIsDirty_timer s) (clock s).

Definition updateIsDirty_expire (s : t) : t :=
  if updateIsDirty_due s
  then
    let s := set_updateIsDirty_timer None s in
    default s (updateIsDirty_body s)
  else s.

Definition autosave_expire (s : t) : t :=
  if due AUTOSAVE_DELAY (autosave_timer s) (clock s)
  then autosave_body (set_autosave_timer None s)
  else s.

Definition onImageUploadStart (s : t) : t := set_isUploading true s.
Definition onImageUploadStop (s : t) : t := set_isUploading false s.

(** *** The scene in its event loop *)

(** The editor reports a change, time passes, the timer of a debounced
    method expires, a save is requested, the save of the [i]-th suspended
    activation of [onSave] settles (a rejection ends the activation at its
    [await]), an image upload starts or stops, or the document is loaded
    again. *)
Inductive event : Type :=
| Change (txt : jsstring)
| Elapse (ms : nat)
| UpdateIsDirtyTimer
| AutosaveTimer
| Save (options : SaveOptions)
| SaveResolved (i : nat) (saved : Document.t)
| SaveRejected (i : nat)
| ImageUploadStart
| ImageUploadStop
| Load (p : Props) (doc : settled (option Document.t) Error)
       (rev : settled (option Revision.t) Error).

Definition step (e : event) (s : t) : t :=
  match e with
  | Change txt => onChange txt s
  | Elapse ms => set_clock (clock s + ms) s
  | UpdateIsDirtyTimer => updateIsDirty_expire s
  | AutosaveTimer => autosave_expire s
  | Save options => onSave options s
  | SaveResolved i saved =>
      match suspended s !! i with
      | Some (options, isNew) =>
          onSave_resume options isNew saved
            (set_suspended (delete i (suspended s)) s)
      | None => s
      end
  | SaveRejected i => set_suspended (delete i (suspended s)) s
  | ImageUploadStart => onImageUploadStart s
  | ImageUploadStop => onImageUploadStop s
  | Load p doc rev => loadDocument p doc rev s
  end.

Fixpoint run (evs : list event) (s : t) : t :=
  match evs with
  | [] => s
  | e :: evs' => run evs' (step e s)
  end.

(** Time that passes during a sequence of events. *)
Fixpoint elapsed (evs : list event) : nat :=
  match evs with
  | [] => 0
  | Elapse ms :: evs' => ms + elapsed evs'
  | _ :: evs' => elapsed evs'
  end.

Definition isChange (e : event) : bool :=
  match e with
  | Change _ => true
  | _ => false
  end.

End Scene.

(** ** Observations on a load *)

Definition isFetch (e : effect) : bool :=
  match e with
  | DocumentsFetch _ _ | RevisionsFetch _ _ => true
  | _ => false
  end.

(** What a load that gets through its [try] block loaded. *)
Definition loadedDocument (p : Props)
    (doc : settled (option Document.t) Error)
    (rev : settled (option Revision.t) Error) : option Document.t :=
  match doc with
  | Rejected _ => None
  | Resolved d =>
      if truthy_string (revisionId (params (match_ p)))
      then match rev with
           | Rejected _ => None
           | Resolved _ => d
           end
      else d
  end.

(** A signed-in user, no share id in the route, and the scene not in edit
    mode once it holds [d]. *)
Definition signedInViewer (matchDocumentEdit : jsstring) (p : Props) (s : t)
    (d : Document.t) : bool :=
  bool_decide (is_Some (user (props s)))
  && negb (truthy_string (shareId (params (match_ p))))
  && negb (strict_eq (path (match_ (props s))) matchDocumentEdit
           || negb (truthy_string (Document.id d))).

Definition isTimer (e : effect) : bool :=
  match e with
  | SetTimeout _ _ => true
  | _ => false
  end.

(** ** Sample data *)

Definition editPath : jsstring := lit "/doc/:documentSlug/edit".
Definition viewPath : jsstring := lit "/doc/:documentSlug".

Definition editUrl (d : Document.t) : jsstring :=
  Document.url d ++ lit "/edit".

Definition sameUrl (matchUrl documentUrl : jsstring) : jsstring :=
  documentUrl.

Definition published : Document.t :=
  {| Document.id := Some (lit "d1");
     Document.text := lit "# Title";
     Document.url := lit "/doc/title-abc";
     Document.isSaving := false;
     Document.isArchived := false;
     Document.publishedAt := Some (lit "2019-03-01") |}.

Definition draft : Document.t :=
  {| Document.id := Some (lit "d2");
     Document.text := lit "# Draft";
     Document.url := lit "/doc/draft-xyz";
     Document.isSaving := false;
     Document.isArchived := false;
     Document.publishedAt := None |}.

Definition unsaved : Document.t :=
  {| Document.id := None;
     Document.text := [];
     Document.url := [];
     Document.isSaving := false;
     Document.isArchived := false;
     Document.publishedAt := None |}.

Definition viewing (slug : string) : Props :=
  {| match_ :=
       {| path := viewPath;
          url := lit "/doc/" ++ lit slug;
          params := {| documentSlug := lit slug; shareId := None;
                       revisionId := None |} |};
     pathname := lit "/doc/" ++ lit slug;
     user := Some (lit "u1") |}.

Definition withRevision (rev : string) (p : Props) : Props :=
  {| match_ :=
       {| path := path (match_ p);
          url := url (match_ p);
          params := {| documentSlug := documentSlug (params (match_ p));
                       shareId := shareId (params (match_ p));
                       revisionId := Some (lit rev) |} |};
     pathname := pathname p;
     user := user p |}.

(** A scene showing [d], the editor holding [txt]. *)
Definition editing (p : Props) (d : Document.t) (txt : string) : t :=
  set_getEditorText (Some (lit txt)) (set_isEmpty false (initial p (Some d))).

Definition explicit : SaveOptions :=
  {| done := None; publish := None; autosave := None |}.

Definition auto : SaveOptions :=
  {| done := Some false; publish := None; autosave := Some true |}.

End DocumentScene.

(** ** app/components/PaginatedDocumentList.js: render *)

Module PaginatedDocumentListView.
Import JS PaginatedDocumentList.

Section Render.

Variable Doc Node : Type.

(** What [render] puts first in its fragment: the [DocumentList] with the
    props passed on to it, or the [empty] node. *)
Inductive content : Type :=
| DocumentList (documents : list Doc) (showCollection showPublished : option bool)
| Empty (empty : option Node).

(** The rendered tree: the fragment, with the key of its [Waypoint] when
    there is one, or the [ListPlaceholder] with its count. *)
Inductive view : Type :=
| Fragment (c : content) (waypoint : option nat)
| ListPlaceholder (count : nat).

(** [documents.length] as a condition. *)
Definition nonEmpty (documents : list Doc) : bool :=
  negb (length documents =? 0).

Definition render (showCollection showPublished : option bool)
    (empty : option Node) (documents : list Doc) (s : t) : view :=
  if isLoaded s || nonEmpty documents
  then Fragment
         (if nonEmpty documents
          then DocumentList documents showCollection showPublished
          else Empty empty)
         (if allowLoadMore s then Some (offset s) else None)
  else ListPlaceholder 5.

Definition waypoint (v : view) : option nat :=
  match v with
  | Fragment _ w => w
  | ListPlaceholder _ => None
  end.

End Render.

Arguments Fragment {Doc Node} c waypoint.
Arguments ListPlaceholder {Doc Node} count.
Arguments DocumentList {Doc Node} documents showCollection showPublished.
Arguments Empty {Doc Node} empty.
Arguments render {Doc Node} showCollection showPublished empty documents s.
Arguments waypoint {Doc Node} v.

(** Events that come from the waypoint and from the fetch promise only. *)
Definition fromWaypoint {Item : Type} (e : event Item) : bool :=
  match e with
  | WaypointEnter | FetchResolved _ | FetchRejected => true
  | Mount | Rerender _ => false
  end.

(** Events that are neither a mount nor a re-render with a fetch function
    other than [f]. *)
Definition keepsFetch {Item : Type} (f : nat) (e : event Item) : bool :=
  match e with
  | Mount => false
  | Rerender p => bool_decide (fetch p = f)
  | WaypointEnter | FetchResolved _ | FetchRejected => true
  end.

(** The request for page [i] made with the props [p]. *)
Definition pageRequest (N : nat) (p : Props) (i : nat) : call :=
  {| callee := fetch p; args := fetch_args N (i * N) (options p) |}.


(** The state of a loader that serves the waypoint only, for the props [p]:
    at most one fetch is pending, the offset is the page size times the
    number of pages asked for (less the pending one), and the requests made
    are those for the pages 0, 1, 2, ... in turn. *)
Definition inStep (N : nat) (p : Props) (s : t) : Prop :=
  props s = p
  ∧ awaiting s ≤ 1
  ∧ (isFetching s = false → awaiting s = 0)
  ∧ (allowLoadMore s = true → isFetching s = false →
     offset s = length (calls s) * N)
  ∧ (awaiting s = 1 → offset s + N = length (calls s) * N)
  ∧ calls s = pageRequest N p <$> seq 0 (length (calls s)).

(** A loader at the end of its data, or stuck in [isFetching] with nothing
    pending, whose fetch function is [f]. *)
Definition idle (f : nat) (s : t) : Prop :=
  fetch (props s) = f
  ∧ (allowLoadMore s = false ∨ isFetching s = true ∧ awaiting s = 0).

End PaginatedDocumentListView.

(** ** app/scenes/Document/Document.js: shortcuts, unmount and render *)

Module DocumentSceneView.
Import JS DocumentScene.

Section Handlers.

(** Imported from [utils/routeHelpers]. *)
Variable matchDocumentEdit : jsstring.
Variable documentMoveUrl : Document.t → jsstring.
Variable documentEditUrl : Document.t → jsstring.
Variable documentHistoryUrl : Document.t → jsstring.

(** [this.props.policies.abilities(id).update] *)
Variable canUpdate : option jsstring → bool.

(** A key handler returns whether it called [ev.preventDefault()], and the
    scene. *)
Definition goToMove (s : t) : bool * t :=
  (true,
   match document s with
   | None => s
   | Some d =>
       if canUpdate (Document.id d)
       then emit (HistoryPush (documentMoveUrl d)) s
       else s
   end).

Definition goToEdit (s : t) : bool * t :=
  (true,
   match document s with
   | None => s
   | Some d =>
       if canUpdate (Document.id d)
       then emit (HistoryPush (documentEditUrl d)) s
       else s
   end).

Definition goToHistory (s : t) : bool * t :=
  (true,
   match document s with
   | None => s
   | Some d =>
       match revision s with
       | Some _ => emit (HistoryPush (Document.url d)) s
       | None => emit (HistoryPush (documentHistoryUrl d)) s
       end
   end).

(** [this.onSave({ publish: true, done: true })] *)
Definition publishOptions : SaveOptions :=
  {| done := Some true; publish := Some true; autosave := None |}.

Definition onPublish (s : t) : bool * t :=
  (true,
   match document s with
   | None => s
   | Some d =>
       if truthy_string (Document.publishedAt d) then s
       else onSave publishOptions s
   end).

(** [componentDidUpdate]; [hasPolicy] is whether
    [this.props.policies.get(this.document.id)] is there.  The load it starts
    is given up to its first [await]. *)
Definition componentDidUpdate (hasPolicy : bool) (s : t) : t :=
  match document s with
  | Some _ => if hasPolicy then s else loadDocument_call (props s) s
  | None => s
  end.

(** [componentWillUnmount]: the handle it passes to [clearTimeout]. *)
Definition componentWillUnmount (s : t) : option nat := viewTimeout s.

(** *** render *)

(** Which of its three trees [render] returns; [online] is
    [navigator.onLine] and [editorLoaded] whether [this.editorComponent] is
    set. *)
Inductive screen : Type :=
| Error404
| ErrorOffline
| Loading
| Editing.

Definition render_screen (online editorLoaded : bool) (s : t) : screen :=
  match error s with
  | Some _ => if online then Error404 else ErrorOffline
  | None =>
      if negb (bool_decide (is_Some (document s))) || negb editorLoaded
      then Loading
      else Editing
  end.

(** The two [Prompt]s: rendered when [this.isEditing], active by [when]. *)
Definition promptDiscard (s : t) : bool :=
  isEditing matchDocumentEdit s && (isDirty s && negb (isUploading s)).

Definition promptUploading (s : t) : bool :=
  isEditing matchDocumentEdit s && (isUploading s && negb (isDirty s)).

(** Props of the [Header] and of the [Editor]. *)
Definition savingIsDisabled (s : t) (d : Document.t) : bool :=
  Document.isSaving d || isEmpty s.

Definition publishingIsDisabled (s : t) (d : Document.t) : bool :=
  Document.isSaving d || isPublishing s || isEmpty s.

Definition readOnly (s : t) (d : Document.t) : bool :=
  negb (isEditing matchDocumentEdit s) || Document.isArchived d.

Definition showLoadingIndicator (s : t) : bool := isUploading s || isSaving s.

End Handlers.

(** *** Observations *)

Definition isHistory (e : effect) : bool :=
  match e with
  | HistoryPush _ | HistoryReplace _ => true
  | _ => false
  end.

Definition isSave (e : effect) : bool :=
  match e with
  | DocumentSave _ _ => true
  | _ => false
  end.

(** The load got through its [try] block. *)
Definition loadSucceeded (p : Props)
    (doc : settled (option Document.t) Error)
    (rev : settled (option Revision.t) Error) : bool :=
  match doc with
  | Rejected _ => false
  | Resolved _ =>
      if truthy_string (revisionId (params (match_ p)))
      then match rev with
           | Rejected _ => false
           | Resolved _ => true
           end
      else true
  end.

(** [s'] has the editor callback, the clock, the pending autosave and the
    props of [s]. *)
Definition sameEditor (s s' : t) : Prop :=
  getEditorText s' = getEditorText s
  ∧ clock s' = clock s
  ∧ autosave_timer s' = autosave_timer s
  ∧ props s' = props s.

(** The handle kept in [viewTimeout], if any, is that of a mark-as-viewed
    timer in the log. *)
Definition timerSet (s : t) : Prop :=
  ∀ i, viewTimeout s = Some i →
       ∃ d, effects s !! i
            = Some (SetTimeout (DocumentView d) MARK_AS_VIEWED_AFTER).

End DocumentSceneView.

(** * Properties of the paginated loader *)

Module PaginatedDocumentListSpec.
Import JS PaginatedDocumentList.

Section Cursor.

Variable N : nat.
Context {Item : Type}.

Lemma endOfData_full (l : list Item) :
  0 < N → length l = N → endOfData N (Items l) = false.
Proof.
  intros HN Hl. unfold endOfData. rewrite Hl.
  destruct (Nat.eqb_spec N 0) as [-> | _]; [lia |].
  simpl. apply Nat.ltb_irrefl.
Qed.

Lemma endOfData_short (l : list Item) :
  length l < N → endOfData N (Items l) = true.
Proof.
  intros Hl. unfold endOfData.
  apply orb_true_intro. right. by apply Nat.ltb_lt.
Qed.

Lemma dispatched_refl (s : t) : dispatched s s = [].
Proof. unfold dispatched. apply drop_all. Qed.

Lemma dispatched_fetchResults_call (s : t) :
  dispatched s (fetchResults_call N s)
  = [{| callee := fetch (props s);
        args := fetch_args N (offset s) (options (props s)) |}].
Proof. unfold dispatched. simpl. by rewrite drop_app_length. Qed.

(** Without an [offset] entry in [options], the request carries the
    cursor's offset. *)
Lemma fetch_args_offset (off : nat) (opts : option (gmap string value)) :
  default ∅ opts !! "offset" = None →
  fetch_args N off opts !! "offset" = Some (VNum off).
Proof.
  intros Hnone. unfold fetch_args.
  rewrite lookup_union_r by exact Hnone.
  rewrite lookup_insert_ne by discriminate.
  apply lookup_singleton_eq.
Qed.

(** No operation of the loader assigns [true] to [allowLoadMore]. *)
Lemma step_allowLoadMore_false (e : event Item) (s : t) :
  allowLoadMore s = false → allowLoadMore (step N e s) = false.
Proof.
  intros Hs. destruct e as [ | p | | r | ]; simpl.
  - exact Hs.
  - unfold componentDidUpdate. case_bool_decide; exact Hs.
  - unfold loadMoreResults.
    destruct (negb (allowLoadMore s) || isFetching s); exact Hs.
  - destruct (awaiting s); [exact Hs |].
    simpl. destruct (endOfData N r); [reflexivity | exact Hs].
  - exact Hs.
Qed.

Lemma run_allowLoadMore_false (evs : list (event Item)) :
  ∀ s, allowLoadMore s = false → allowLoadMore (run N evs s) = false.
Proof.
  induction evs as [ | e evs IH]; intros s Hs; simpl.
  - exact Hs.
  - apply IH. by apply step_allowLoadMore_false.
Qed.

End Cursor.

(** With a page size of 0 the two cases of a fetch step coincide: an empty
    page has exactly the page size, and it ends the data. *)
Remark empty_page_of_size_zero (s : t) :
  allowLoadMore (fetchResults 0 (Items (@nil nat)) s) = false.
Proof. reflexivity. Qed.

(** C1.  A fetch step with page size [N > 0]: a page of exactly [N] items
    advances the offset by [N] and leaves [allowLoadMore] as it was (true
    stays true); a page of fewer than [N] items, the empty page included,
    sets [allowLoadMore] to false, leaves the offset where it was, and
    [allowLoadMore] is false after every later sequence of loader events. *)
Theorem fetch_step_cursor (N : nat) (Item : Type) (s : t) (l : list Item) :
  0 < N →
  let s' := fetchResults N (Items l) s in
  (length l = N →
     offset s' = offset s + N
     ∧ allowLoadMore s' = allowLoadMore s
     ∧ (allowLoadMore s = true → allowLoadMore s' = true))
  ∧ (length l < N →
     allowLoadMore s' = false
     ∧ offset s' = offset s
     ∧ ∀ evs : list (event Item), allowLoadMore (run N evs s') = false).
Proof.
  intros HN s'. split; intros Hl.
  - pose proof (endOfData_full N l HN Hl) as He.
    subst s'. unfold fetchResults, fetchResults_resume.
    cbn [offset allowLoadMore fetchResults_call]. rewrite He. auto.
  - pose proof (endOfData_short N l Hl) as He.
    assert (Hfalse : allowLoadMore s' = false).
    { subst s'. unfold fetchResults, fetchResults_resume.
      cbn [allowLoadMore]. by rewrite He. }
    split; [exact Hfalse |]. split.
    + subst s'. unfold fetchResults, fetchResults_resume.
      cbn [offset fetchResults_call]. by rewrite He.
    + intros evs. by apply run_allowLoadMore_false.
Qed.

Lemma fetch_step_cursor_witness :
  (* a full page *)
  offset (fetchResults 10 (page 10) (initial someProps)) = 10
  ∧ allowLoadMore (fetchResults 10 (page 10) (initial someProps)) = true
  (* a short page, then anything *)
  ∧ allowLoadMore (fetchResults 10 (page 4) (initial someProps)) = false
  ∧ offset (fetchResults 10 (page 4) (initial someProps)) = 0
  ∧ allowLoadMore
      (run 10 [Rerender otherProps; FetchResolved (page 10); WaypointEnter;
               FetchRejected; Mount; FetchResolved Falsy]
         (fetchResults 10 (page 4) (initial someProps))) = false.
Proof.
  assert (H10 : 0 < 10) by lia.
  destruct (fetch_step_cursor 10 nat (initial someProps) (seq 0 10) H10)
    as [Hfull _].
  destruct (fetch_step_cursor 10 nat (initial someProps) (seq 0 4) H10)
    as [_ Hshort].
  destruct (Hfull eq_refl) as (Ho & _ & Ha).
  assert (H4 : length (seq 0 4) < 10) by (simpl; lia).
  destruct (Hshort H4) as (Hf & Ho' & Hever).
  split; [exact Ho |].
  split; [exact (Ha eq_refl) |].
  split; [exact Hf |].
  split; [exact Ho' |].
  apply Hever.
Defined.

(** C2.  While a fetch is in flight, or once the end of the data has been
    seen, [loadMoreResults] calls no fetch function and leaves the whole
    component as it is: offset, allowLoadMore, isFetching and isLoaded
    included. *)
Theorem loadMore_guarded_noop (N : nat) (s : t) :
  isFetching s = true ∨ allowLoadMore s = false →
  loadMoreResults N s = s
  ∧ dispatched s (loadMoreResults N s) = []
  ∧ offset (loadMoreResults N s) = offset s
  ∧ allowLoadMore (loadMoreResults N s) = allowLoadMore s
  ∧ isFetching (loadMoreResults N s) = isFetching s
  ∧ isLoaded (loadMoreResults N s) = isLoaded s.
Proof.
  intros Hguard.
  assert (Heq : loadMoreResults N s = s).
  { unfold loadMoreResults.
    destruct Hguard as [Hf | Ha]; [rewrite Hf | rewrite Ha].
    - by rewrite orb_true_r.
    - reflexivity. }
  rewrite Heq. split; [reflexivity |]. split; [apply dispatched_refl |].
  repeat split.
Qed.

Lemma loadMore_guarded_noop_witness :
  let s := fetchResults_call 10 (initial someProps) in
  isFetching s = true ∧ loadMoreResults 10 s = s.
Proof.
  intros s. split; [reflexivity |].
  apply (loadMore_guarded_noop 10 s). left. reflexivity.
Defined.

(** The offsets requested along [scenario] are 0, 10 and 20; then the end
    of the data is known and a fourth waypoint event calls nothing. *)
Example scenario_requests :
  let s := run 10 scenario (initial someProps) in
  (λ c, args c !! "offset") <$> calls s
    = [Some (VNum 0); Some (VNum 10); Some (VNum 20)]
  ∧ offset s = 20
  ∧ allowLoadMore s = false
  ∧ isFetching s = false
  ∧ length (calls (step 10 (@WaypointEnter nat) s)) = 3.
Proof. vm_compute. repeat split. Qed.

(** C3, as stated, fails: after [scenario] the cursor is at offset 20 with
    [allowLoadMore] false; a re-render with another fetch function fetches
    at offset 20 and leaves both as they are. *)
Lemma fetch_change_keeps_cursor :
  let s := run 10 scenario (initial someProps) in
  let s' := step 10 (@Rerender nat otherProps) s in
  fetch otherProps ≠ fetch (props s)
  ∧ offset s' = 20
  ∧ allowLoadMore s' = false
  ∧ (λ c, (callee c, args c !! "offset")) <$> dispatched s s'
      = [(2, Some (VNum 20))]
  ∧ ¬ (offset s' = 0 ∧ allowLoadMore s' = true).
Proof.
  vm_compute. repeat split; try discriminate.
  intros [H _]. discriminate H.
Qed.

(** C3, amended.  A freshly constructed component has offset 0 and
    [allowLoadMore] true, and mounting it fetches at offset 0.  When a
    re-render brings a fetch function of another identity, the loader
    fetches once more, with the new function, at its current offset; offset
    and [allowLoadMore] are not reset.  A re-render with the same fetch
    function fetches nothing. *)
Theorem mount_and_fetch_change (N : nat) (Item : Type) :
  (∀ p : Props,
     let s := initial p in
     let s' := step N (@Mount Item) s in
     offset s = 0 ∧ allowLoadMore s = true
     ∧ dispatched s s'
         = [{| callee := fetch p; args := fetch_args N 0 (options p) |}]
     ∧ offset s' = 0 ∧ allowLoadMore s' = true)
  ∧ (∀ (s : t) (p : Props),
       let s' := step N (@Rerender Item p) s in
       (fetch p ≠ fetch (props s) →
          dispatched s s'
            = [{| callee := fetch p;
                  args := fetch_args N (offset s) (options p) |}]
          ∧ offset s' = offset s
          ∧ allowLoadMore s' = allowLoadMore s)
       ∧ (fetch p = fetch (props s) →
            dispatched s s' = [] ∧ offset s' = offset s
            ∧ allowLoadMore s' = allowLoadMore s)).
Proof.
  split.
  - intros p s s'. subst s s'. cbn [step componentDidMount].
    rewrite dispatched_fetchResults_call. repeat split.
  - intros s p s'. subst s'. cbn [step]. unfold componentDidUpdate.
    cbn [props setProps]. split; intros Hid.
    + rewrite bool_decide_eq_true_2 by congruence.
      split; [| split; reflexivity].
      unfold dispatched. cbn [calls fetchResults_call setProps props offset].
      by rewrite drop_app_length.
    + rewrite bool_decide_eq_false_2 by (intros Hne; by apply Hne).
      split; [| split; reflexivity].
      unfold dispatched. cbn [calls setProps]. apply drop_all.
Qed.

Lemma mount_and_fetch_change_witness :
  let s := run 10 scenario (initial someProps) in
  let s' := step 10 (@Rerender nat otherProps) s in
  dispatched s s'
    = [{| callee := 2; args := fetch_args 10 (offset s) None |}]
  ∧ offset s' = offset s
  ∧ allowLoadMore s' = allowLoadMore s.
Proof.
  intros s s'.
  destruct (mount_and_fetch_change 10 nat) as [_ Hchange].
  destruct (Hchange s otherProps) as [Hne _].
  apply Hne. vm_compute. discriminate.
Defined.

(** C10.  When the fetch promise resolves to a falsy value, the fetch step
    advances the offset by the page size and leaves [allowLoadMore] true;
    the next [loadMoreResults] then calls the fetch function once, with the
    request built at the advanced offset (which is the request's [offset]
    entry unless [options] overrides it). *)
Theorem falsy_results_advance (N : nat) (Item : Type) (s : t) :
  allowLoadMore s = true →
  let s' := fetchResults N (@Falsy Item) s in
  offset s' = offset s + N
  ∧ allowLoadMore s' = true
  ∧ dispatched s' (loadMoreResults N s')
      = [{| callee := fetch (props s);
            args := fetch_args N (offset s + N) (options (props s)) |}]
  ∧ (default ∅ (options (props s)) !! "offset" = None →
     args <$> dispatched s' (loadMoreResults N s')
       = [fetch_args N (offset s + N) (options (props s))]
     ∧ fetch_args N (offset s + N) (options (props s)) !! "offset"
       = Some (VNum (offset s + N))).
Proof.
  intros Ha s'.
  assert (Hload : loadMoreResults N s' = fetchResults_call N s').
  { unfold loadMoreResults. subst s'.
    unfold fetchResults, fetchResults_resume.
    cbn [allowLoadMore isFetching endOfData fetchResults_call].
    by rewrite Ha. }
  assert (Hd : dispatched s' (loadMoreResults N s')
               = [{| callee := fetch (props s);
                     args := fetch_args N (offset s + N)
                               (options (props s)) |}]).
  { rewrite Hload, dispatched_fetchResults_call. reflexivity. }
  split; [reflexivity |]. split; [exact Ha |]. split; [exact Hd |].
  intros Hnone. split.
  - by rewrite Hd.
  - by apply fetch_args_offset.
Qed.

Lemma falsy_results_advance_witness :
  let s := fetchResults 10 (@Falsy nat) (initial someProps) in
  offset s = 10
  ∧ allowLoadMore s = true
  ∧ args <$> dispatched s (loadMoreResults 10 s) = [fetch_args 10 10 None].
Proof.
  intros s.
  destruct (falsy_results_advance 10 nat (initial someProps) eq_refl)
    as (Ho & Ha & _ & Hreq).
  split; [exact Ho |]. split; [exact Ha |].
  destruct (Hreq eq_refl) as [Hargs _]. exact Hargs.
Defined.

End PaginatedDocumentListSpec.

(** * Properties of the document scene *)

Module DocumentSceneSpec.
Import JS DocumentScene.

(** ** The effect log *)

Lemma emitted_app (s s' : t) (l : list effect) :
  effects s' = effects s ++ l → emitted s s' = l.
Proof. intros H. unfold emitted. rewrite H. apply drop_app_length. Qed.

Lemma emitted_same_log (s s' : t) :
  effects s' = effects s → emitted s s' = [].
Proof. intros H. apply emitted_app. by rewrite app_nil_r. Qed.

Lemma emitted_refl (s : t) : emitted s s = [].
Proof. by apply emitted_same_log. Qed.

Lemma strict_eq_true (a b : jsstring) : strict_eq a b = true ↔ a = b.
Proof. unfold strict_eq. apply bool_decide_eq_true. Qed.

Lemma strict_eq_false (a b : jsstring) : strict_eq a b = false ↔ a ≠ b.
Proof. unfold strict_eq. apply bool_decide_eq_false. Qed.

(** ** Guards of onSave *)

Example trim_examples :
  trim (lit " # ") = lit "#"
  ∧ trim (10%N :: 9%N :: lit "# Title" ++ [160%N; 8232%N; 13%N]) = lit "# Title"
  ∧ trim (lit "a b") = lit "a b"
  ∧ trim (lit "   ") = [].
Proof. vm_compute. repeat split. Qed.

(** C4.  When the editor text trims to the single character "#", the
    dirty-check sets [isEmpty] to true, and a save with any options returns
    at its guard: the scene is left exactly as it was, so nothing is
    persisted, [isSaving] and [isPublishing] are not set, and nothing is
    pushed to the history.  The same holds for the function the autosave
    timer runs. *)
Theorem single_hash_is_empty (s : t) (txt : jsstring) :
  getEditorText s = Some txt →
  trim txt = lit "#" →
  (∃ s', updateIsDirty_body s = Some s' ∧ isEmpty s' = true)
  ∧ (∀ options : SaveOptions,
       onSave_call options s = Returned s
       ∧ onSave options s = s
       ∧ emitted s (onSave options s) = []
       ∧ isSaving (onSave options s) = isSaving s
       ∧ isPublishing (onSave options s) = isPublishing s)
  ∧ autosave_body s = s.
Proof.
  intros Hget Htrim.
  assert (Hcall : ∀ options, onSave_call options s = Returned s).
  { intros options. unfold onSave_call.
    destruct (document s) as [d |]; [| reflexivity].
    destruct (Document.isSaving d); [reflexivity |].
    unfold currentText. rewrite Hget, Htrim.
    unfold strict_eq. by rewrite bool_decide_eq_true_2. }
  assert (Hsave : ∀ options, onSave options s = s).
  { intros options. unfold onSave. by rewrite Hcall. }
  split; [| split].
  - unfold updateIsDirty_body. rewrite Hget, Htrim.
    eexists. split; [reflexivity |]. reflexivity.
  - intros options. rewrite (Hsave options).
    split; [apply Hcall |]. split; [reflexivity |].
    split; [apply emitted_refl |]. split; reflexivity.
  - apply Hsave.
Qed.

Lemma single_hash_is_empty_witness :
  let s := editing (viewing "title-abc") published " # " in
  onSave explicit s = s ∧ onSave auto s = s.
Proof.
  intros s.
  destruct (single_hash_is_empty s (lit " # ") eq_refl eq_refl)
    as (_ & Hsave & _).
  split.
  - destruct (Hsave explicit) as (_ & H & _). exact H.
  - destruct (Hsave auto) as (_ & H & _). exact H.
Defined.

(** C5.  With the trimmed editor text equal to the trimmed text of the
    document, a save carrying the autosave option returns at its guard and
    leaves the scene as it was; a save without that option, when no save of
    the document is in flight and the text is not the placeholder "#", goes
    on to [document.save]: it stores the text in the document, sets
    [isSaving] and calls [save] with its options. *)
Theorem autosave_needs_a_change (s : t) (d : Document.t)
    (options : SaveOptions) :
  document s = Some d →
  trim (currentText s d) = trim (Document.text d) →
  (truthy_flag (autosave options) = true →
     onSave_call options s = Returned s
     ∧ onSave options s = s
     ∧ emitted s (onSave options s) = [])
  ∧ (truthy_flag (autosave options) = false →
     Document.isSaving d = false →
     trim (currentText s d) ≠ lit "#" →
     ∃ s',
       onSave_call options s
         = Awaiting (negb (truthy_string (Document.id d))) s'
       ∧ emitted s s'
           = [DocumentSave (Document.set_text (currentText s d) d) options]
       ∧ isSaving s' = true
       ∧ isPublishing s' = truthy_flag (publish options)
       ∧ document s' = Some (Document.set_text (currentText s d) d)).
Proof.
  intros Hdoc Hsame. split.
  - intros Hauto.
    assert (Hcall : onSave_call options s = Returned s).
    { unfold onSave_call. rewrite Hdoc.
      destruct (Document.isSaving d); [reflexivity |].
      destruct (strict_eq (trim (currentText s d)) (lit "#"));
        [reflexivity |].
      rewrite Hauto, Hsame. unfold strict_eq.
      by rewrite bool_decide_eq_true_2. }
    split; [exact Hcall |].
    assert (Hsave : onSave options s = s)
      by (unfold onSave; by rewrite Hcall).
    split; [exact Hsave |]. rewrite Hsave. apply emitted_refl.
  - intros Hauto Hidle Hhash.
    unfold onSave_call. rewrite Hdoc, Hidle.
    apply strict_eq_false in Hhash. rewrite Hhash, Hauto.
    cbn [andb]. eexists. split; [reflexivity |].
    split; [by apply emitted_app |]. repeat split.
Qed.

Lemma autosave_needs_a_change_witness :
  let s := editing (viewing "title-abc") published "# Title  " in
  onSave auto s = s
  ∧ ∃ s', onSave_call explicit s = Awaiting false s' ∧ isSaving s' = true.
Proof.
  intros s.
  destruct (autosave_needs_a_change s published auto eq_refl eq_refl)
    as [Hauto _].
  destruct (autosave_needs_a_change s published explicit eq_refl eq_refl)
    as [_ Hexplicit].
  split.
  - destruct (Hauto eq_refl) as (_ & H & _). exact H.
  - destruct (Hexplicit eq_refl eq_refl) as (s' & Hcall & _ & Hsaving & _).
    + vm_compute. discriminate.
    + exists s'. split; [exact Hcall | exact Hsaving].
Defined.

(** ** The debounced dirty-check *)

Section Quiet.

Variable matchDocumentEdit : jsstring.
Variable documentEditUrl : Document.t → jsstring.
Variable updateDocumentUrl : jsstring → jsstring → jsstring.

Local Abbreviation step :=
  (step matchDocumentEdit documentEditUrl updateDocumentUrl).
Local Abbreviation run :=
  (run matchDocumentEdit documentEditUrl updateDocumentUrl).

(** What the operations of the scene leave alone. *)
Lemma onSave_frame (options : SaveOptions) (s : t) :
  getEditorText (onSave options s) = getEditorText s
  ∧ clock (onSave options s) = clock s
  ∧ updateIsDirty_timer (onSave options s) = updateIsDirty_timer s.
Proof.
  unfold onSave, onSave_call.
  destruct (document s) as [d |]; [| done].
  destruct (Document.isSaving d); [done |].
  destruct (strict_eq _ _); [done |].
  destruct (_ && _); done.
Qed.

Lemma onSave_resume_frame (options : SaveOptions) (isNew : bool)
    (saved : Document.t) (s : t) :
  let s' := onSave_resume documentEditUrl options isNew saved s in
  getEditorText s' = getEditorText s
  ∧ clock s' = clock s
  ∧ updateIsDirty_timer s' = updateIsDirty_timer s.
Proof.
  unfold onSave_resume.
  destruct (truthy_flag (done options)); [done |].
  destruct isNew; done.
Qed.

Lemma updateIsDirty_body_frame (s s' : t) :
  updateIsDirty_body s = Some s' →
  getEditorText s' = getEditorText s
  ∧ clock s' = clock s
  ∧ updateIsDirty_timer s' = updateIsDirty_timer s
  ∧ document s' = document s.
Proof.
  unfold updateIsDirty_body.
  destruct (getEditorText s) as [txt |] eqn:Hget; [| discriminate].
  intros [= <-]. cbn. by rewrite Hget.
Qed.

Lemma loadDocument_frame (p : Props)
    (doc : settled (option Document.t) Error)
    (rev : settled (option Revision.t) Error) (s : t) :
  let s' := loadDocument matchDocumentEdit updateDocumentUrl p doc rev s in
  getEditorText s' = getEditorText s
  ∧ clock s' = clock s
  ∧ updateIsDirty_timer s' = updateIsDirty_timer s.
Proof.
  cbv zeta.
  unfold loadDocument, loadDocument_fetched, loadDocument_revision,
    loadDocument_loaded, goToDocumentCanonical.
  destruct doc as [[d |] | err], rev as [r | err'];
    destruct (truthy_string (revisionId (params (match_ p))));
    cbn [document set_isEmpty set_isDirty set_revision set_document emit
         set_effects loadDocument_call];
    repeat match goal with
           | |- context [if ?b then _ else _] => destruct b
           end;
    done.
Qed.

(** An event other than a change keeps the editor callback, moves the
    clock by the time it stands for, and can only clear the pending
    dirty-check. *)
Lemma step_quiet (e : event) (s : t) :
  isChange e = false →
  let s' := step e s in
  getEditorText s' = getEditorText s
  ∧ clock s' = clock s + elapsed [e]
  ∧ (updateIsDirty_timer s' = updateIsDirty_timer s
     ∨ updateIsDirty_timer s' = None ∧ e = UpdateIsDirtyTimer).
Proof.
  intros Hquiet. cbv zeta.
  destruct e as [txt | ms | | | options | i saved | i | | | p doc rev];
    try discriminate Hquiet; cbn [DocumentScene.step elapsed];
    rewrite ?Nat.add_0_r.
  - cbn. auto.
  - unfold updateIsDirty_expire.
    destruct (updateIsDirty_due s); [| auto]. cbv zeta.
    destruct (updateIsDirty_body (set_updateIsDirty_timer None s))
      as [s' |] eqn:Hbody; cbn [default from_option id].
    + apply updateIsDirty_body_frame in Hbody as (Hg & Hc & Ht & _).
      rewrite Hg, Hc, Ht. cbn. auto.
    + cbn. auto.
  - unfold autosave_expire.
    destruct (due _ _ _); [| auto].
    unfold autosave_body.
    destruct (onSave_frame auto (set_autosave_timer None s))
      as (Hg & Hc & Ht).
    fold auto. rewrite Hg, Hc, Ht. cbn. auto.
  - destruct (onSave_frame options s) as (Hg & Hc & Ht).
    rewrite Hg, Hc, Ht. auto.
  - destruct (suspended s !! i) as [[options isNew] |]; [| auto].
    destruct (onSave_resume_frame options isNew saved
                (set_suspended (delete i (suspended s)) s))
      as (Hg & Hc & Ht).
    rewrite Hg, Hc, Ht. cbn. auto.
  - cbn. auto.
  - cbn. auto.
  - cbn. auto.
  - destruct (loadDocument_frame p doc rev s) as (Hg & Hc & Ht).
    rewrite Hg, Hc, Ht. auto.
Qed.

Lemma run_quiet (evs : list event) :
  ∀ s : t,
    Forall (λ e, isChange e = false) evs →
    let s' := run evs s in
    getEditorText s' = getEditorText s
    ∧ clock s' = clock s + elapsed evs
    ∧ (updateIsDirty_timer s' = updateIsDirty_timer s
       ∨ updateIsDirty_timer s' = None ∧ UpdateIsDirtyTimer ∈ evs).
Proof.
  induction evs as [ | e evs IH]; intros s Hquiet; cbv zeta.
  - cbn. rewrite Nat.add_0_r. auto.
  - inversion Hquiet as [ | ? ? He Hevs]; subst.
    destruct (step_quiet e s He) as (Hg & Hc & Ht).
    destruct (IH (step e s) Hevs) as (Hg' & Hc' & Ht').
    cbn [run]. rewrite Hg', Hc', Hg, Hc.
    split; [reflexivity |]. split.
    + destruct e; cbn [elapsed] in *; lia.
    + destruct Ht' as [-> | [-> Hin]].
      * destruct Ht as [-> | [-> ->]]; [by left |].
        right. split; [reflexivity | apply list_elem_of_here].
      * right. split; [reflexivity | by apply list_elem_of_further].
Qed.

(** The body of the dirty-check, on a scene with a document and an editor
    callback. *)
Lemma updateIsDirty_body_spec (s : t) (d : Document.t) (txt : jsstring) :
  document s = Some d →
  getEditorText s = Some txt →
  ∃ s', updateIsDirty_body s = Some s'
        ∧ isEmpty s' = strict_eq (trim txt) (lit "#")
        ∧ (isDirty s' = true ↔ trim txt ≠ trim (Document.text d)).
Proof.
  intros Hdoc Hget. unfold updateIsDirty_body. rewrite Hget.
  eexists. split; [reflexivity |]. cbn. rewrite Hdoc.
  split; [reflexivity |].
  rewrite negb_true_iff. apply strict_eq_false.
Qed.

End Quiet.

(** C6.  After a change event at which the editor holds [txt], followed by
    events [evs] none of which is a change: when the timer of the
    debounced dirty-check expires, nothing happens as long as less than
    [IS_DIRTY_DELAY] = 500 ms have passed since the change; the check runs
    only once that time has passed (and does run then, if it has not run
    already), and after it [isDirty] is true exactly when the trimmed
    editor text differs from the trimmed text of the loaded document. *)
Theorem dirty_check_debounced (matchDocumentEdit : jsstring)
    (documentEditUrl : Document.t → jsstring)
    (updateDocumentUrl : jsstring → jsstring → jsstring)
    (s : t) (txt : jsstring) (evs : list event) :
  Forall (λ e, isChange e = false) evs →
  let s1 :=
    run matchDocumentEdit documentEditUrl updateDocumentUrl
      (Change txt :: evs) s in
  let s2 :=
    step matchDocumentEdit documentEditUrl updateDocumentUrl
      UpdateIsDirtyTimer s1 in
  (elapsed evs < 500 → s2 = s1)
  ∧ (updateIsDirty_due s1 = true →
     500 ≤ elapsed evs
     ∧ isEmpty s2 = strict_eq (trim txt) (lit "#")
     ∧ ∀ d : Document.t,
         document s1 = Some d →
         (isDirty s2 = true ↔ trim txt ≠ trim (Document.text d)))
  ∧ (UpdateIsDirtyTimer ∉ evs →
     500 ≤ elapsed evs →
     updateIsDirty_due s1 = true).
Proof.
  intros Hquiet s1 s2. change 500 with IS_DIRTY_DELAY.
  destruct (run_quiet matchDocumentEdit documentEditUrl updateDocumentUrl
              evs (onChange txt s) Hquiet) as (Hget & Hclock & Htimer).
  change (run matchDocumentEdit documentEditUrl updateDocumentUrl evs
            (onChange txt s)) with s1 in *.
  unfold updateIsDirty_due.
  cbn [onChange getEditorText clock updateIsDirty_timer
       set_autosave_timer set_updateIsDirty_timer set_getEditorText]
    in Hget, Hclock, Htimer.
  assert (Hdue : due IS_DIRTY_DELAY (updateIsDirty_timer s1) (clock s1) = true
                 → IS_DIRTY_DELAY ≤ elapsed evs).
  { destruct Htimer as [-> | [-> _]]; [| discriminate].
    rewrite Hclock. cbn [due]. intros H%Nat.leb_le. lia. }
  split; [| split].
  - intros Hearly. subst s2. cbn [step].
    unfold updateIsDirty_expire, updateIsDirty_due.
    destruct (due _ _ _) eqn:E; [| reflexivity].
    specialize (Hdue eq_refl). lia.
  - intros Hnow. split; [by apply Hdue |].
    subst s2. cbn [step].
    unfold updateIsDirty_expire, updateIsDirty_due. rewrite Hnow.
    cbv zeta.
    assert (Hbody : ∀ d, document s1 = Some d →
              ∃ s', updateIsDirty_body (set_updateIsDirty_timer None s1)
                      = Some s'
                    ∧ isEmpty s' = strict_eq (trim txt) (lit "#")
                    ∧ (isDirty s' = true
                       ↔ trim txt ≠ trim (Document.text d))).
    { intros d Hd. by apply updateIsDirty_body_spec. }
    split.
    + unfold updateIsDirty_body. cbn [getEditorText set_updateIsDirty_timer].
      rewrite Hget. reflexivity.
    + intros d Hd. destruct (Hbody d Hd) as (s' & -> & _ & Hiff).
      exact Hiff.
  - intros Hnotfired Hlate.
    destruct Htimer as [-> | [_ Hin]]; [| contradiction].
    rewrite Hclock. cbn [due]. apply Nat.leb_le. lia.
Qed.

(** The editor reports "# Title\nBody" over a document saved as "# Title":
    nothing changes before 500 ms, and at 500 ms the scene is dirty and not
    empty. *)
Lemma dirty_check_debounced_witness :
  let s := editing (viewing "title-abc") published "# Title" in
  let txt := lit "# Title" ++ [10%N] ++ lit "Body" in
  let early := run editPath editUrl sameUrl [Change txt; Elapse 499] s in
  let late := run editPath editUrl sameUrl [Change txt; Elapse 300; Elapse 200] s in
  step editPath editUrl sameUrl UpdateIsDirtyTimer early = early
  ∧ isDirty (step editPath editUrl sameUrl UpdateIsDirtyTimer late) = true.
Proof.
  intros s txt early late. split.
  - assert (Hquiet : Forall (λ e, isChange e = false) [Elapse 499])
      by (repeat constructor).
    destruct (dirty_check_debounced editPath editUrl sameUrl s txt [Elapse 499] Hquiet)
      as (Hearly & _).
    apply Hearly. vm_compute. lia.
  - assert (Hquiet : Forall (λ e, isChange e = false) [Elapse 300; Elapse 200])
      by (repeat constructor).
    destruct (dirty_check_debounced editPath editUrl sameUrl s txt [Elapse 300; Elapse 200]
                Hquiet) as (_ & Hruns & _).
    destruct (Hruns eq_refl) as (_ & _ & Hiff).
    apply (Hiff published eq_refl). vm_compute. discriminate.
Defined.

(** ** Loading *)

(** C7.  When [documents.fetch] rejects, or, with a revision id in the
    route, [revisions.fetch] rejects, the load stores the error and
    returns: [isDirty] and [isEmpty] keep their values, no timer is stored,
    and the only calls made are the store fetches themselves (no
    [setActiveDocument], no history push or replace, no [setTimeout]). *)
Theorem load_failure_stops (matchDocumentEdit : jsstring)
    (updateDocumentUrl : jsstring → jsstring → jsstring)
    (p : Props) (s : t) (err : Error)
    (doc : settled (option Document.t) Error)
    (rev : settled (option Revision.t) Error) :
  doc = Rejected err
  ∨ (∃ d, doc = Resolved d
          ∧ truthy_string (revisionId (params (match_ p))) = true
          ∧ rev = Rejected err) →
  let s' := loadDocument matchDocumentEdit updateDocumentUrl p doc rev s in
  error s' = Some err
  ∧ isDirty s' = isDirty s
  ∧ isEmpty s' = isEmpty s
  ∧ viewTimeout s' = viewTimeout s
  ∧ revision s' = revision s
  ∧ Forall (λ e, isFetch e = true) (emitted s s')
  ∧ (doc = Rejected err →
     s' = set_error (Some err) (loadDocument_call p s)
     ∧ document s' = document s).
Proof.
  intros [-> | (d & -> & Hrev & ->)] s'; subst s';
    unfold loadDocument, loadDocument_fetched; [| rewrite Hrev];
    cbn [loadDocument_revision].
  - repeat (split; [reflexivity |]). split.
    + erewrite emitted_app by reflexivity. by repeat constructor.
    + intros _. split; reflexivity.
  - repeat (split; [reflexivity |]). split.
    + erewrite emitted_app.
      2: { cbn [effects set_error emit set_effects set_document
                loadDocument_call].
           rewrite <- app_assoc. reflexivity. }
      by repeat constructor.
    + discriminate.
Qed.

Lemma load_failure_stops_witness :
  let p := withRevision "r7" (viewing "title-abc") in
  let s := editing p published "# Title, changed" in
  let s' := loadDocument editPath sameUrl p (Resolved (Some published))
              (Rejected (lit "offline")) (set_isDirty true s) in
  error s' = Some (lit "offline")
  ∧ isDirty s' = true
  ∧ Forall (λ e, isFetch e = true) (emitted (set_isDirty true s) s').
Proof.
  intros p s s'.
  destruct (load_failure_stops editPath sameUrl p (set_isDirty true s)
              (lit "offline") (Resolved (Some published))
              (Rejected (lit "offline")))
    as (Herr & Hdirty & _ & _ & _ & Hfetch & _).
  - right. exists (Some published). repeat split.
  - split; [exact Herr |]. split; [exact Hdirty | exact Hfetch].
Defined.

Section Loaded.

Variable matchDocumentEdit : jsstring.
Variable updateDocumentUrl : jsstring → jsstring → jsstring.

(** The timers set by the part of [loadDocument] after its [try] block,
    for a scene that holds document [d]. *)
Lemma loadDocument_loaded_timers (p : Props) (s : t) (d : Document.t) :
  document s = Some d →
  filter (λ e, isTimer e = true)
    (emitted s (loadDocument_loaded matchDocumentEdit updateDocumentUrl p s))
  = if signedInViewer matchDocumentEdit p s d
       && truthy_string (Document.publishedAt d)
    then [SetTimeout (DocumentView d) MARK_AS_VIEWED_AFTER]
    else [].
Proof.
  intros Hdoc. unfold loadDocument_loaded, signedInViewer.
  cbn [document set_isEmpty set_isDirty]. rewrite Hdoc.
  unfold isEditing, goToDocumentCanonical.
  cbn [props document emit set_effects set_isEmpty set_isDirty].
  rewrite Hdoc.
  set (edit := strict_eq (path (match_ (props s))) matchDocumentEdit
               || negb (truthy_string (Document.id d))).
  destruct (Document.isArchived d), edit,
    (bool_decide (is_Some (user (props s)))),
    (truthy_string (shareId (params (match_ p)))),
    (truthy_string (Document.publishedAt d));
    cbn [andb orb negb];
    repeat match goal with
           | |- context [if ?b then _ else _] => destruct b
           end;
    (erewrite emitted_app;
     [| cbn [effects emit set_effects set_viewTimeout set_isEmpty
             set_isDirty];
        rewrite <- ?app_assoc; reflexivity]);
    reflexivity.
Qed.

(** The log only grows. *)
Lemma loadDocument_loaded_log (p : Props) (s : t) :
  let s' := loadDocument_loaded matchDocumentEdit updateDocumentUrl p s in
  effects s' = effects s ++ emitted s s'.
Proof.
  cbv zeta.
  assert (H : ∃ l, effects (loadDocument_loaded matchDocumentEdit
                              updateDocumentUrl p s) = effects s ++ l).
  { unfold loadDocument_loaded, goToDocumentCanonical.
    cbn [document set_isEmpty set_isDirty emit set_effects].
    destruct (document s) as [d |];
      repeat match goal with
             | |- context [if ?b then _ else _] => destruct b
             end;
      cbn [effects emit set_effects set_viewTimeout set_isEmpty
           set_isDirty];
      rewrite <- ?app_assoc; eauto using app_nil_r. }
  destruct H as [l Hl]. rewrite (emitted_app _ _ _ Hl). exact Hl.
Qed.

Lemma emitted_loadDocument_loaded (p : Props) (s0 s : t)
    (l : list effect) :
  effects s = effects s0 ++ l →
  emitted s0 (loadDocument_loaded matchDocumentEdit updateDocumentUrl p s)
  = l ++ emitted s
           (loadDocument_loaded matchDocumentEdit updateDocumentUrl p s).
Proof.
  intros Hl. apply emitted_app.
  rewrite loadDocument_loaded_log, Hl. by rewrite app_assoc.
Qed.

End Loaded.

(** C8, as stated, fails: a signed-in user opens a draft (a saved document
    that is not published) on its view route, without share id; the load
    succeeds and sets no timer. *)
Lemma draft_is_not_marked_viewed :
  let p := viewing "draft-xyz" in
  let s := initial p None in
  let s' := loadDocument editPath sameUrl p (Resolved (Some draft))
              (Resolved None) s in
  error s' = None
  ∧ document s' = Some draft
  ∧ is_Some (user (props s'))
  ∧ shareId (params (match_ p)) = None
  ∧ isEditing editPath s' = false
  ∧ emitted s s'
      = [DocumentsFetch (lit "draft-xyz") None; SetActiveDocument draft]
  ∧ ¬ (∃ cb delay, SetTimeout cb delay ∈ emitted s s').
Proof.
  vm_compute. repeat split; try (by eexists).
  intros (cb & delay & Hin).
  repeat (apply elem_of_cons in Hin as [Hin | Hin]; [discriminate Hin |]).
  by apply elem_of_nil in Hin.
Qed.

(** C8, amended.  A load sets a timer in exactly one outcome: it got
    through its [try] block with a document, the user is signed in, the
    route has no share id, the scene is not in edit mode, and the document
    is published.  The timer then calls the [view] method of the loaded
    document after [MARK_AS_VIEWED_AFTER] = 3000 ms, and is the only timer
    set; in every other outcome of a load no timer is set. *)
Theorem mark_as_viewed_when_published (matchDocumentEdit : jsstring)
    (updateDocumentUrl : jsstring → jsstring → jsstring)
    (p : Props) (s : t)
    (doc : settled (option Document.t) Error)
    (rev : settled (option Revision.t) Error) :
  let s' := loadDocument matchDocumentEdit updateDocumentUrl p doc rev s in
  filter (λ e, isTimer e = true) (emitted s s')
  = match loadedDocument p doc rev with
    | Some d =>
        if signedInViewer matchDocumentEdit p s d
           && truthy_string (Document.publishedAt d)
        then [SetTimeout (DocumentView d) 3000]
        else []
    | None => []
    end.
Proof.
  cbv zeta. unfold loadDocument, loadDocument_fetched, loadedDocument.
  destruct doc as [d | err].
  - destruct (truthy_string (revisionId (params (match_ p)))).
    + destruct rev as [r | err]; cbn [loadDocument_revision].
      * erewrite emitted_loadDocument_loaded.
        2: { cbn [effects emit set_effects set_revision set_document
                  loadDocument_call]. rewrite <- app_assoc. reflexivity. }
        rewrite filter_app. cbn [app].
        destruct d as [d |].
        -- rewrite (loadDocument_loaded_timers _ _ _ _ d) by reflexivity.
           reflexivity.
        -- unfold loadDocument_loaded. cbn [document set_isEmpty set_isDirty
             set_revision set_document emit set_effects].
           by rewrite emitted_same_log.
      * erewrite emitted_app.
        2: { cbn [effects set_error emit set_effects set_document
                  loadDocument_call]. rewrite <- app_assoc. reflexivity. }
        reflexivity.
    + cbv beta iota zeta.
      erewrite emitted_loadDocument_loaded by reflexivity.
      rewrite filter_app. cbn [app].
      destruct d as [d |].
      * rewrite (loadDocument_loaded_timers _ _ _ _ d) by reflexivity.
        reflexivity.
      * unfold loadDocument_loaded. cbn [document set_isEmpty set_isDirty
          set_revision set_document emit set_effects loadDocument_call].
        by rewrite emitted_same_log.
  - erewrite emitted_app by reflexivity. reflexivity.
Qed.

(** A signed-in user opens a published document on its view route. *)
Lemma mark_as_viewed_when_published_witness :
  let p := viewing "title-abc" in
  let s := initial p None in
  filter (λ e, isTimer e = true)
    (emitted s (loadDocument editPath sameUrl p (Resolved (Some published))
                  (Resolved None) s))
  = [SetTimeout (DocumentView published) 3000].
Proof.
  intros p s.
  exact (mark_as_viewed_when_published editPath sameUrl p s
           (Resolved (Some published)) (Resolved None)).
Defined.

(** ** Completion of a save *)

(** C9, as stated, fails: the first save of an unsaved document, not
    requested as "done", pushes the edit URL of the resulting document, not
    its URL. *)
Lemma first_save_goes_to_edit_url :
  let s := editing (viewing "new") unsaved "# Title" in
  let s1 := onSave explicit s in
  let s2 := step editPath editUrl sameUrl (SaveResolved 0 published) s1 in
  suspended s1 = [(explicit, true)]
  ∧ emitted s1 s2
      = [HistoryPush (lit "/doc/title-abc/edit");
         SetActiveDocument published]
  ∧ Document.url published = lit "/doc/title-abc"
  ∧ HistoryPush (Document.url published) ∉ emitted s1 s2.
Proof.
  vm_compute. repeat split.
  intros Hin.
  repeat (apply elem_of_cons in Hin as [Hin | Hin]; [discriminate Hin |]).
  by apply elem_of_nil in Hin.
Qed.

(** C9, amended.  A save that goes on to [document.save] remembers whether
    the document had no id.  When the save resolves, [isDirty], [isSaving]
    and [isPublishing] are cleared.  If the save was requested with the
    "done" option, the scene pushes the URL of the resulting document and
    registers that document as the active one; otherwise, if the document
    had no id before the save, it pushes the edit URL of the resulting
    document and registers it as the active one; otherwise it makes no
    call at all. *)
Theorem save_completion (documentEditUrl : Document.t → jsstring)
    (options : SaveOptions) (s s1 : t) (d : Document.t) (isNew : bool) :
  document s = Some d →
  onSave_call options s = Awaiting isNew s1 →
  isNew = negb (truthy_string (Document.id d))
  ∧ ∀ (saved : Document.t) (s2 : t),
      let s3 := onSave_resume documentEditUrl options isNew saved s2 in
      isDirty s3 = false
      ∧ isSaving s3 = false
      ∧ isPublishing s3 = false
      ∧ emitted s2 s3
          = if truthy_flag (done options)
            then [HistoryPush (Document.url saved);
                  SetActiveDocument saved]
            else if isNew
            then [HistoryPush (documentEditUrl saved);
                  SetActiveDocument saved]
            else [].
Proof.
  intros Hdoc Hcall. split.
  - unfold onSave_call in Hcall. rewrite Hdoc in Hcall.
    destruct (Document.isSaving d); [discriminate |].
    destruct (strict_eq _ _); [discriminate |].
    destruct (_ && _); [discriminate |].
    by injection Hcall as <- _.
  - intros saved s2. cbv zeta. unfold onSave_resume.
    destruct (truthy_flag (done options)); [| destruct isNew].
    + repeat (split; [reflexivity |]).
      apply emitted_app. cbn. by rewrite <- app_assoc.
    + repeat (split; [reflexivity |]).
      apply emitted_app. cbn. by rewrite <- app_assoc.
    + repeat (split; [reflexivity |]). by apply emitted_same_log.
Qed.

Lemma save_completion_witness :
  let s := editing (viewing "new") unsaved "# Title" in
  let s1 := onSave explicit s in
  let s2 := step editPath editUrl sameUrl (SaveResolved 0 published) s1 in
  isDirty s2 = false ∧ isSaving s2 = false ∧ isPublishing s2 = false
  ∧ emitted (set_suspended [] s1) s2
      = [HistoryPush (editUrl published); SetActiveDocument published].
Proof.
  intros s s1 s2.
  destruct (onSave_call explicit s) as [s' | isNew s'] eqn:Hcall;
    [discriminate Hcall |].
  destruct (save_completion editUrl explicit s s' unsaved isNew eq_refl Hcall)
    as [HisNew Hdone].
  destruct (Hdone published (set_suspended [] s1)) as (Hd & Hs & Hp & He).
  subst isNew. exact (conj Hd (conj Hs (conj Hp He))).
Defined.

End DocumentSceneSpec.

(** * Further properties of the paginated loader *)

Module PaginatedDocumentListRuns.
Import JS PaginatedDocumentList PaginatedDocumentListView.

Section Runs.

Variable N : nat.
Context {Item : Type}.

(** The log of calls only grows, and nothing but [fetchResults] writes it. *)
Lemma calls_loadMoreResults_guarded (s : t) :
  allowLoadMore s = false ∨ isFetching s = true →
  loadMoreResults N s = s.
Proof.
  intros [H | H]; unfold loadMoreResults; rewrite H; [done |].
  by rewrite orb_true_r.
Qed.

Lemma inStep_mount (p : Props) : inStep N p (componentDidMount N (initial p)).
Proof.
  unfold inStep, componentDidMount. cbn.
  repeat split; auto; try lia; discriminate.
Qed.

Lemma inStep_call (p : Props) (s : t) :
  inStep N p s → allowLoadMore s = true → isFetching s = false →
  inStep N p (fetchResults_call N s).
Proof.
  intros (Hp & Hle & Hidle & Hoff & _ & Hcalls) Ha Hf.
  specialize (Hidle Hf). specialize (Hoff Ha Hf).
  unfold inStep.
  cbn [props awaiting isFetching allowLoadMore offset calls fetchResults_call].
  rewrite length_app. cbn [length].
  split; [exact Hp |]. split; [lia |]. split; [discriminate |].
  split; [discriminate |]. split; [lia |].
  rewrite Nat.add_1_r, seq_S, fmap_app, <- Hcalls. cbn.
  unfold pageRequest. by rewrite Hp, Hoff.
Qed.

Lemma inStep_step (p : Props) (e : event Item) (s : t) :
  fromWaypoint e = true → inStep N p s → inStep N p (step N e s).
Proof.
  intros He Hs. destruct e as [ | p' | | r | ]; try discriminate He;
    cbn [step].
  - unfold loadMoreResults.
    destruct (allowLoadMore s) eqn:Ha, (isFetching s) eqn:Hf;
      cbn [negb orb]; try exact Hs.
    by apply inStep_call.
  - destruct (awaiting s) as [ | n] eqn:Hn; [exact Hs |].
    destruct Hs as (Hp & Hle & Hidle & Hoff & Hpend & Hcalls).
    assert (n = 0) by lia. subst n. specialize (Hpend Hn).
    unfold inStep.
    cbn [props awaiting isFetching allowLoadMore offset calls
         fetchResults_resume]. rewrite Hn. cbn [pred].
    split; [exact Hp |]. split; [lia |]. split; [done |].
    split; [| split; [discriminate | exact Hcalls]].
    destruct (endOfData N r); [discriminate |]. intros _ _. exact Hpend.
  - destruct Hs as (Hp & Hle & Hidle & Hoff & Hpend & Hcalls).
    unfold inStep.
    cbn [props awaiting isFetching allowLoadMore offset calls
         fetchResults_abort].
    split; [exact Hp |]. split; [lia |].
    split; [intros Hf; rewrite (Hidle Hf); reflexivity |].
    split; [exact Hoff |]. split; [| exact Hcalls].
    intros H1. lia.
Qed.

Lemma inStep_run (p : Props) (evs : list (event Item)) :
  ∀ s, Forall (λ e, fromWaypoint e = true) evs →
       inStep N p s → inStep N p (run N evs s).
Proof.
  induction evs as [ | e evs IH]; intros s Hevs Hs; [exact Hs |].
  inversion Hevs as [ | ? ? He Hrest]; subst. cbn [run].
  apply IH; [exact Hrest |]. by apply inStep_step.
Qed.

(** The offset never goes down, and it moves by the page size. *)
Lemma step_offset (e : event Item) (s : t) :
  offset (step N e s) = offset s ∨ offset (step N e s) = offset s + N.
Proof.
  destruct e as [ | p | | r | ]; cbn [step].
  - by left.
  - unfold componentDidUpdate. case_bool_decide; by left.
  - unfold loadMoreResults. destruct (_ || _); by left.
  - destruct (awaiting s); [by left |].
    cbn [offset fetchResults_resume].
    destruct (endOfData N r); [by left | by right].
  - by left.
Qed.

Lemma run_offset_le (evs : list (event Item)) :
  ∀ s, offset s ≤ offset (run N evs s).
Proof.
  induction evs as [ | e evs IH]; intros s; [done |].
  cbn [run]. etransitivity; [| apply IH].
  destruct (step_offset e s) as [-> | ->]; lia.
Qed.

Lemma run_offset_multiple (evs : list (event Item)) :
  ∀ s k, offset s = k * N → ∃ k', offset (run N evs s) = k' * N.
Proof.
  induction evs as [ | e evs IH]; intros s k Hk; [by exists k |].
  cbn [run].
  destruct (step_offset e s) as [He | He].
  - apply (IH _ k). congruence.
  - apply (IH _ (S k)). rewrite He, Hk. cbn. lia.
Qed.

Lemma step_isLoaded (e : event Item) (s : t) :
  isLoaded s = true → isLoaded (step N e s) = true.
Proof.
  intros Hs. destruct e as [ | p | | r | ]; cbn [step].
  - exact Hs.
  - unfold componentDidUpdate. case_bool_decide; exact Hs.
  - unfold loadMoreResults. destruct (_ || _); exact Hs.
  - destruct (awaiting s); [exact Hs | reflexivity].
  - exact Hs.
Qed.

Lemma run_isLoaded (evs : list (event Item)) :
  ∀ s, isLoaded s = true → isLoaded (run N evs s) = true.
Proof.
  induction evs as [ | e evs IH]; intros s Hs; [exact Hs |].
  cbn [run]. apply IH. by apply step_isLoaded.
Qed.

(** An idle loader stays idle and makes no call. *)
Lemma idle_step (f : nat) (e : event Item) (s : t) :
  keepsFetch f e = true → idle f s →
  idle f (step N e s) ∧ calls (step N e s) = calls s.
Proof.
  intros He [Hf Hidle]. unfold idle.
  destruct e as [ | p | | r | ]; try discriminate He; cbn [step].
  - apply bool_decide_eq_true in He.
    unfold componentDidUpdate. cbn [props setProps].
    rewrite bool_decide_eq_false_2 by (intros Hne; apply Hne; congruence).
    split; [| reflexivity]. split; [exact He | exact Hidle].
  - rewrite calls_loadMoreResults_guarded by tauto.
    split; [| reflexivity]. by split.
  - destruct (awaiting s) as [ | n] eqn:Hn.
    + split; [| reflexivity]. split; [exact Hf |].
      destruct Hidle as [Ha | [Hb _]]; [by left | by right].
    + destruct Hidle as [Ha | [_ H0]]; [| lia].
      split; [| reflexivity]. split; [exact Hf |]. left.
      cbn [allowLoadMore fetchResults_resume]. rewrite Ha.
      by destruct (endOfData N r).
  - split; [| reflexivity]. split; [exact Hf |].
    destruct Hidle as [Ha | [Hb H0]]; [by left |].
    right. cbn [isFetching awaiting fetchResults_abort]. by rewrite H0.
Qed.

Lemma idle_run (f : nat) (evs : list (event Item)) :
  ∀ s, Forall (λ e, keepsFetch f e = true) evs → idle f s →
       idle f (run N evs s) ∧ calls (run N evs s) = calls s.
Proof.
  induction evs as [ | e evs IH]; intros s Hevs Hs; [done |].
  inversion Hevs as [ | ? ? He Hrest]; subst. cbn [run].
  destruct (idle_step f e s He Hs) as [Hs' Hc].
  destruct (IH (step N e s) Hrest Hs') as [Hs'' Hc'].
  split; [exact Hs'' | congruence].
Qed.

(** A loader stuck in [isFetching] with nothing pending stays as it is, up
    to the props it is given. *)
Lemma stuck_step (f : nat) (e : event Item) (s : t) :
  keepsFetch f e = true →
  fetch (props s) = f → isFetching s = true → awaiting s = 0 →
  let s' := step N e s in
  fetch (props s') = f ∧ isFetching s' = true ∧ awaiting s' = 0
  ∧ calls s' = calls s ∧ offset s' = offset s
  ∧ allowLoadMore s' = allowLoadMore s ∧ isLoaded s' = isLoaded s.
Proof.
  intros He Hf Hb H0. cbv zeta.
  destruct e as [ | p | | r | ]; try discriminate He; cbn [step].
  - apply bool_decide_eq_true in He.
    unfold componentDidUpdate. cbn [props setProps].
    rewrite bool_decide_eq_false_2 by (intros Hne; apply Hne; congruence).
    cbn. repeat split; assumption.
  - rewrite calls_loadMoreResults_guarded by tauto. repeat split; assumption.
  - rewrite H0. repeat split; assumption.
  - cbn. rewrite H0. repeat split; assumption.
Qed.

Lemma stuck_run (f : nat) (evs : list (event Item)) :
  ∀ s, Forall (λ e, keepsFetch f e = true) evs →
       fetch (props s) = f → isFetching s = true → awaiting s = 0 →
       let s' := run N evs s in
       isFetching s' = true
       ∧ calls s' = calls s ∧ offset s' = offset s
       ∧ allowLoadMore s' = allowLoadMore s ∧ isLoaded s' = isLoaded s.
Proof.
  induction evs as [ | e evs IH]; intros s Hevs Hf Hb H0; cbv zeta;
    [cbn; repeat split; assumption |].
  inversion Hevs as [ | ? ? He Hrest]; subst. cbn [run].
  destruct (stuck_step _ e s He eq_refl Hb H0)
    as (Hf' & Hb' & H0' & Hc & Ho & Ha & Hl).
  destruct (IH (step N e s) Hrest Hf' Hb' H0') as (Hb2 & Hc2 & Ho2 & Ha2 & Hl2).
  repeat split; congruence.
Qed.

End Runs.

(** X1.  A loader that, once mounted, is driven by its waypoint alone (no
    re-render with another fetch function) asks for the pages in turn: its
    k-th request is the one for offset k times the page size, none is asked
    for twice and none is skipped, and at most one fetch is pending at any
    time.  Rejected and short pages included. *)
Theorem waypoint_pages_in_turn (N : nat) (Item : Type) (p : Props)
    (evs : list (event Item)) :
  Forall (λ e, fromWaypoint e = true) evs →
  let s := run N evs (componentDidMount N (initial p)) in
  calls s = pageRequest N p <$> seq 0 (length (calls s))
  ∧ awaiting s ≤ 1.
Proof.
  intros Hevs s.
  destruct (inStep_run N p evs _ Hevs (inStep_mount N p))
    as (_ & Hle & _ & _ & _ & Hcalls).
  split; [exact Hcalls | exact Hle].
Qed.

Lemma waypoint_pages_in_turn_witness :
  let s := run 10 scenario (initial someProps) in
  calls s = [pageRequest 10 someProps 0; pageRequest 10 someProps 1;
             pageRequest 10 someProps 2].
Proof.
  intros s.
  assert (Hevs : Forall (λ e : event nat, fromWaypoint e = true)
                   (tail scenario)) by (repeat constructor).
  destruct (waypoint_pages_in_turn 10 nat someProps (tail scenario) Hevs)
    as [Hcalls _].
  exact Hcalls.
Defined.

(** X2.  Whatever happens to a loader, its offset never decreases, and from
    construction on it is a multiple of the page size. *)
Theorem offset_grows_by_pages (N : nat) (Item : Type)
    (evs : list (event Item)) :
  (∀ s : t, offset s ≤ offset (run N evs s))
  ∧ (∀ p : Props, ∃ k, offset (run N evs (initial p)) = k * N).
Proof.
  split.
  - intros s. apply run_offset_le.
  - intros p. by apply (run_offset_multiple N evs (initial p) 0).
Qed.

(** X3.  When the only pending fetch rejects, [isFetching] is left true:
    from then on neither the waypoint nor a re-render that keeps the fetch
    function makes any call, and the cursor and [isLoaded] stay as they
    were. *)
Theorem rejected_fetch_blocks (N : nat) (Item : Type) (s0 : t)
    (evs : list (event Item)) :
  awaiting s0 = 0 →
  Forall (λ e, keepsFetch (fetch (props s0)) e = true) evs →
  let s := step N (@FetchRejected Item) (fetchResults_call N s0) in
  let s' := run N evs s in
  isFetching s' = true
  ∧ calls s' = calls s
  ∧ offset s' = offset s0
  ∧ allowLoadMore s' = allowLoadMore s0
  ∧ isLoaded s' = isLoaded s0.
Proof.
  intros H0 Hevs s s'.
  assert (Hs0 : awaiting s = 0) by (subst s; cbn; lia).
  exact (stuck_run N (fetch (props s0)) evs s Hevs eq_refl eq_refl Hs0).
Qed.

Lemma rejected_fetch_blocks_witness :
  let s := run 10 [Mount; @FetchRejected nat] (initial someProps) in
  let s' := run 10 [@WaypointEnter nat; Rerender someProps; WaypointEnter] s in
  isFetching s' = true ∧ length (calls s') = 1 ∧ isLoaded s' = false
  ∧ render (Node := unit) None None None (@nil nat) s' = ListPlaceholder 5.
Proof.
  intros s s'.
  assert (Hevs : Forall (λ e : event nat, keepsFetch 1 e = true)
                   [WaypointEnter; Rerender someProps; WaypointEnter])
    by (repeat constructor).
  destruct (rejected_fetch_blocks 10 nat (initial someProps) _ eq_refl Hevs)
    as (Hb & Hc & _ & _ & Hl).
  split; [exact Hb |].
  split; [exact (f_equal length Hc) |].
  assert (Hl' : isLoaded s' = false) by exact Hl.
  split; [exact Hl' |].
  unfold render. rewrite Hl'. reflexivity.
Defined.

(** X4.  A re-render with another fetch function fetches without looking at
    [isFetching]: with a fetch already pending, both requests carry the same
    offset, and when both resolve to full pages the offset has moved by two
    pages, so the second page of the new function is never asked for. *)
Theorem fetch_change_overlaps (N : nat) (Item : Type) (s : t) (p : Props)
    (l1 l2 : list Item) :
  0 < N →
  fetch p ≠ fetch (props s) →
  length l1 = N → length l2 = N →
  let s1 := step N (@Rerender Item p) (fetchResults_call N s) in
  let s2 := run N [FetchResolved (Items l1); FetchResolved (Items l2)] s1 in
  dispatched s s1
    = [{| callee := fetch (props s);
          args := fetch_args N (offset s) (options (props s)) |};
       {| callee := fetch p;
          args := fetch_args N (offset s) (options p) |}]
  ∧ awaiting s1 = awaiting s + 2
  ∧ offset s2 = offset s + 2 * N
  ∧ calls s2 = calls s1.
Proof.
  intros HN Hp Hl1 Hl2 s1 s2.
  assert (Hs1 : s1 = fetchResults_call N (setProps p (fetchResults_call N s))).
  { subst s1. cbn [step]. unfold componentDidUpdate.
    cbn [props setProps fetchResults_call].
    by rewrite bool_decide_eq_true_2 by congruence. }
  pose proof (PaginatedDocumentListSpec.endOfData_full N l1 HN Hl1) as E1.
  pose proof (PaginatedDocumentListSpec.endOfData_full N l2 HN Hl2) as E2.
  split; [| split; [| split]].
  - rewrite Hs1. unfold dispatched.
    cbn [calls fetchResults_call setProps props offset].
    rewrite <- app_assoc. by rewrite drop_app_length.
  - rewrite Hs1. cbn [awaiting fetchResults_call setProps]. lia.
  - subst s2. rewrite Hs1.
    cbn [run step awaiting fetchResults_call setProps fetchResults_resume
         pred offset].
    rewrite E1, E2. lia.
  - subst s2. rewrite Hs1. reflexivity.
Qed.

Lemma fetch_change_overlaps_witness :
  let s1 := run 10 [Mount; @Rerender nat otherProps] (initial someProps) in
  let s2 := run 10 [FetchResolved (page 10); FetchResolved (page 10)] s1 in
  (λ c, (callee c, args c !! "offset")) <$> calls s1
    = [(1, Some (VNum 0)); (2, Some (VNum 0))]
  ∧ offset s2 = 20.
Proof.
  intros s1 s2.
  assert (H10 : 0 < 10) by lia.
  assert (Hne : fetch otherProps ≠ fetch (props (initial someProps)))
    by discriminate.
  destruct (fetch_change_overlaps 10 nat (initial someProps) otherProps
              (seq 0 10) (seq 0 10) H10 Hne eq_refl eq_refl)
    as (Hd & _ & Ho & _).
  split; [| exact Ho].
  change (dispatched _ _) with (calls s1) in Hd.
  rewrite Hd. reflexivity.
Defined.

(** X5.  Once a fetch has resolved, [isLoaded] is never reset: whatever
    happens next and whatever documents are passed, [render] returns the
    fragment, never the loading placeholder. *)
Theorem loaded_never_placeholder (N : nat) (Item Doc Node : Type) (s : t)
    (evs : list (event Item)) (showCollection showPublished : option bool)
    (empty : option Node) (documents : list Doc) :
  isLoaded s = true →
  ∃ c w,
    render showCollection showPublished empty documents (run N evs s)
    = Fragment c w.
Proof.
  intros Hs. unfold render.
  rewrite (run_isLoaded N evs s Hs). cbn [orb]. eauto.
Qed.

Lemma loaded_never_placeholder_witness :
  ∃ c w,
    render (Node := unit) None None None (@nil nat)
      (run 10 [@Rerender nat otherProps; WaypointEnter]
         (fetchResults 10 (@Falsy nat) (initial someProps)))
    = Fragment c w.
Proof.
  exact (loaded_never_placeholder 10 nat nat unit
           (fetchResults 10 (@Falsy nat) (initial someProps))
           [Rerender otherProps; WaypointEnter] None None None [] eq_refl).
Defined.

(** X6.  The end of the data is final for the fetch function at hand: once
    [allowLoadMore] is false, no event other than a mount or a re-render
    with another fetch function makes a call, and [render] shows no
    waypoint, whatever documents are passed. *)
Theorem end_of_data_is_final (N : nat) (Item Doc Node : Type) (s : t)
    (evs : list (event Item)) :
  allowLoadMore s = false →
  Forall (λ e, keepsFetch (fetch (props s)) e = true) evs →
  calls (run N evs s) = calls s
  ∧ ∀ (showCollection showPublished : option bool) (empty : option Node)
      (documents : list Doc),
      waypoint (render showCollection showPublished empty documents
                  (run N evs s)) = None.
Proof.
  intros Ha Hevs. split.
  - apply (idle_run N (fetch (props s)) evs s Hevs). split; [done | by left].
  - intros sc sp empty documents. unfold render.
    rewrite (PaginatedDocumentListSpec.run_allowLoadMore_false N evs s Ha).
    by destruct (_ || _).
Qed.

Lemma end_of_data_is_final_witness :
  let s := run 10 scenario (initial someProps) in
  calls (run 10 [@WaypointEnter nat; Rerender someProps; WaypointEnter] s)
  = calls s.
Proof.
  intros s.
  assert (Hevs : Forall (λ e : event nat, keepsFetch 1 e = true)
                   [WaypointEnter; Rerender someProps; WaypointEnter])
    by (repeat constructor).
  exact (proj1 (end_of_data_is_final 10 nat nat unit s _ eq_refl Hevs)).
Defined.

End PaginatedDocumentListRuns.

(** * Further properties of the document scene *)

Module DocumentSceneRuns.
Import JS DocumentScene DocumentSceneView.

(** ** Prompts and the header against the guards of onSave *)

(** X7.  The two leave-page prompts are never active together, and with
    unsaved changes and an image upload at once neither is: an upload that
    starts while the scene is dirty switches the discard prompt off, and the
    end of the upload switches it on again. *)
Theorem prompts_exclude_each_other (matchDocumentEdit : jsstring) (s : t) :
  promptDiscard matchDocumentEdit s && promptUploading matchDocumentEdit s
    = false
  ∧ (isDirty s = true →
     let during := onImageUploadStart s in
     let after := onImageUploadStop during in
     promptDiscard matchDocumentEdit during = false
     ∧ promptUploading matchDocumentEdit during = false
     ∧ promptDiscard matchDocumentEdit after = isEditing matchDocumentEdit s).
Proof.
  unfold promptDiscard, promptUploading, isEditing. cbn.
  split.
  - destruct (_ || _), (isDirty s), (isUploading s); reflexivity.
  - intros ->. rewrite !andb_false_r, andb_true_r. auto.
Qed.

Lemma prompts_exclude_each_other_witness :
  let s := set_isDirty true (editing (viewing "new") unsaved "# Title") in
  promptDiscard editPath s = true
  ∧ promptDiscard editPath (onImageUploadStart s) = false
  ∧ promptUploading editPath (onImageUploadStart s) = false.
Proof.
  intros s. split; [reflexivity |].
  destruct (prompts_exclude_each_other editPath s) as [_ H].
  destruct (H eq_refl) as (Hd & Hu & _).
  split; [exact Hd | exact Hu].
Defined.

(** X8.  Right after the dirty-check has run on a scene with a document, the
    header's save control is enabled exactly when a save without the
    autosave option would go on to [document.save]; it is disabled exactly
    when such a save returns at a guard and leaves the scene as it is. *)
Theorem save_control_matches_guard (s s' : t) (d : Document.t)
    (options : SaveOptions) :
  document s = Some d →
  updateIsDirty_body s = Some s' →
  truthy_flag (autosave options) = false →
  (savingIsDisabled s' d = false ↔
     ∃ isNew s'', onSave_call options s' = Awaiting isNew s'')
  ∧ (savingIsDisabled s' d = true ↔ onSave_call options s' = Returned s').
Proof.
  intros Hdoc Hbody Hauto.
  unfold updateIsDirty_body in Hbody.
  destruct (getEditorText s) as [txt |] eqn:Hget; [| discriminate].
  injection Hbody as <-.
  unfold savingIsDisabled, onSave_call, currentText.
  cbn [document getEditorText isEmpty set_isDirty set_isEmpty].
  rewrite Hdoc, Hget, Hauto.
  destruct (Document.isSaving d), (strict_eq (trim txt) (lit "#"));
    cbn [orb andb]; split; split; try done; try (intros (? & ? & ?); done);
    eauto.
Qed.

Lemma save_control_matches_guard_witness :
  let s := editing (viewing "title-abc") published " # " in
  ∃ s', updateIsDirty_body s = Some s'
        ∧ savingIsDisabled s' published = true
        ∧ onSave_call explicit s' = Returned s'.
Proof.
  intros s. eexists. split; [reflexivity |]. split; [reflexivity |].
  eapply (save_control_matches_guard s _ published explicit eq_refl eq_refl
            eq_refl).
  reflexivity.
Defined.

(** X9.  A save that goes on to [document.save] has stored the editor text in
    the document: as long as the editor text stays the same, the function
    run by the autosave timer does nothing, and the dirty-check reports a
    scene that is neither dirty nor empty. *)
Theorem save_stores_the_text (options : SaveOptions) (s s1 : t)
    (isNew : bool) :
  onSave_call options s = Awaiting isNew s1 →
  autosave_body s1 = s1
  ∧ (∀ txt, getEditorText s = Some txt →
       ∃ s2, updateIsDirty_body s1 = Some s2
             ∧ isDirty s2 = false ∧ isEmpty s2 = false).
Proof.
  unfold onSave_call.
  destruct (document s) as [d |] eqn:Hdoc; [| discriminate].
  destruct (Document.isSaving d) eqn:Hidle; [discriminate |].
  set (text := currentText s d).
  destruct (strict_eq (trim text) (lit "#")) eqn:Hhash; [discriminate |].
  destruct (_ && _); [discriminate |].
  intros [= _ <-].
  set (s1 := emit _ _).
  assert (Hdoc1 : document s1 = Some (Document.set_text text d))
    by reflexivity.
  assert (Htext : currentText s1 (Document.set_text text d) = text).
  { unfold currentText. subst s1 text. unfold currentText. cbn.
    by destruct (getEditorText s). }
  split.
  - unfold autosave_body, onSave, onSave_call.
    rewrite Hdoc1. cbn [Document.isSaving Document.set_text].
    rewrite Hidle, Htext, Hhash. cbn [Document.text autosave truthy_flag].
    unfold strict_eq. by rewrite bool_decide_eq_true_2.
  - intros txt Hget.
    assert (Hget1 : getEditorText s1 = Some txt) by exact Hget.
    assert (text = txt) as <-.
    { subst text. unfold currentText. by rewrite Hget. }
    unfold updateIsDirty_body. rewrite Hget1.
    eexists. split; [reflexivity |].
    cbn [isDirty isEmpty set_isDirty set_isEmpty document]. rewrite Hdoc1.
    cbn [Document.text Document.set_text].
    split; [| exact Hhash].
    unfold strict_eq. by rewrite bool_decide_eq_true_2.
Qed.

Lemma save_stores_the_text_witness :
  let s := editing (viewing "title-abc") published "# Title, changed" in
  ∃ s1, onSave_call explicit s = Awaiting false s1 ∧ autosave_body s1 = s1.
Proof.
  intros s. eexists. split; [reflexivity |].
  eapply (save_stores_the_text explicit s _ false eq_refl).
Defined.

(** ** What the operations leave alone *)

Section Frames.

Variable matchDocumentEdit : jsstring.
Variable documentEditUrl : Document.t → jsstring.
Variable updateDocumentUrl : jsstring → jsstring → jsstring.

Local Abbreviation step :=
  (step matchDocumentEdit documentEditUrl updateDocumentUrl).
Local Abbreviation run :=
  (run matchDocumentEdit documentEditUrl updateDocumentUrl).
Local Abbreviation loadDocument_loaded :=
  (loadDocument_loaded matchDocumentEdit updateDocumentUrl).
Local Abbreviation loadDocument :=
  (loadDocument matchDocumentEdit updateDocumentUrl).

Lemma onSave_sameEditor (options : SaveOptions) (s : t) :
  sameEditor s (onSave options s)
  ∧ error (onSave options s) = error s
  ∧ viewTimeout (onSave options s) = viewTimeout s
  ∧ ∃ l, effects (onSave options s) = effects s ++ l.
Proof.
  unfold onSave, onSave_call, sameEditor.
  destruct (document s) as [d |];
    [| repeat split; exists []; by rewrite app_nil_r].
  destruct (Document.isSaving d);
    [repeat split; exists []; by rewrite app_nil_r |].
  destruct (strict_eq _ _);
    [repeat split; exists []; by rewrite app_nil_r |].
  destruct (_ && _);
    [repeat split; exists []; by rewrite app_nil_r |].
  repeat split. eexists. reflexivity.
Qed.

Lemma onSave_resume_sameEditor (options : SaveOptions) (isNew : bool)
    (saved : Document.t) (s : t) :
  let s' := onSave_resume documentEditUrl options isNew saved s in
  sameEditor s s'
  ∧ error s' = error s
  ∧ viewTimeout s' = viewTimeout s
  ∧ ∃ l, effects s' = effects s ++ l.
Proof.
  unfold onSave_resume, sameEditor.
  destruct (truthy_flag (done options)); [| destruct isNew]; cbn;
    repeat split; rewrite <- ?app_assoc; eauto using app_nil_r.
Qed.

Lemma loadDocument_loaded_fields (p : Props) (s : t) :
  let s' := loadDocument_loaded p s in
  sameEditor s s'
  ∧ error s' = error s
  ∧ document s' = document s
  ∧ revision s' = revision s
  ∧ isDirty s' = false
  ∧ isEmpty s' = false.
Proof.
  cbv zeta. unfold DocumentScene.loadDocument_loaded, goToDocumentCanonical,
    sameEditor.
  cbn [document set_isEmpty set_isDirty emit set_effects].
  destruct (document s) as [d |] eqn:Hdoc;
    repeat match goal with
           | |- context [if ?b then _ else _] => destruct b
           end;
    cbn; rewrite ?Hdoc; repeat split.
Qed.

Lemma loadDocument_fields (p : Props)
    (doc : settled (option Document.t) Error)
    (rev : settled (option Revision.t) Error) (s : t) :
  let s' := loadDocument p doc rev s in
  sameEditor s s'
  ∧ (is_Some (error s) → is_Some (error s'))
  ∧ (loadSucceeded p doc rev = true →
     error s' = error s ∧ isDirty s' = false ∧ isEmpty s' = false).
Proof.
  cbv zeta.
  unfold DocumentScene.loadDocument, loadDocument_fetched,
    loadDocument_revision, loadSucceeded.
  destruct doc as [d | err].
  - destruct (truthy_string (revisionId (params (match_ p)))).
    + destruct rev as [r | err].
      * match goal with
        | |- context [DocumentScene.loadDocument_loaded _ _ p ?s0] =>
            destruct (loadDocument_loaded_fields p s0)
              as ((Hg & Hc & Ht & Hp) & He & _ & _ & Hd & Hm)
        end.
        unfold sameEditor. rewrite Hg, Hc, Ht, Hp, He, Hd, Hm. cbn.
        repeat split; auto.
      * unfold sameEditor. cbn. repeat split; first [discriminate | by eauto].
    + match goal with
      | |- context [DocumentScene.loadDocument_loaded _ _ p ?s0] =>
          destruct (loadDocument_loaded_fields p s0)
            as ((Hg & Hc & Ht & Hp) & He & _ & _ & Hd & Hm)
      end.
      unfold sameEditor. rewrite Hg, Hc, Ht, Hp, He, Hd, Hm. cbn.
      repeat split; auto.
  - unfold sameEditor. cbn. repeat split; first [discriminate | by eauto].
Qed.

(** An event other than a change keeps the editor callback and the props,
    moves the clock by the time it stands for, can only clear the pending
    autosave, and never clears the error. *)
Lemma step_sameEditor (e : event) (s : t) :
  isChange e = false →
  let s' := step e s in
  getEditorText s' = getEditorText s
  ∧ props s' = props s
  ∧ clock s' = clock s + elapsed [e]
  ∧ (autosave_timer s' = autosave_timer s
     ∨ autosave_timer s' = None ∧ e = AutosaveTimer)
  ∧ (is_Some (error s) → is_Some (error s')).
Proof.
  intros Hquiet. cbv zeta.
  destruct e as [txt | ms | | | options | i saved | i | | | p doc rev];
    try discriminate Hquiet; cbn [DocumentScene.step elapsed];
    rewrite ?Nat.add_0_r.
  - cbn. repeat split; auto.
  - unfold updateIsDirty_expire.
    destruct (updateIsDirty_due s); [| repeat split; auto]. cbv zeta.
    unfold updateIsDirty_body. cbn [getEditorText set_updateIsDirty_timer].
    destruct (getEditorText s) eqn:Hget; cbn; rewrite ?Hget;
      repeat split; auto.
  - unfold autosave_expire.
    destruct (due _ _ _); [| repeat split; auto]. unfold autosave_body.
    match goal with
    | |- context [onSave ?o ?s0] =>
        destruct (onSave_sameEditor o s0) as ((Hg & Hc & Ht & Hp) & He & _)
    end.
    rewrite Hg, Hc, Ht, Hp, He. cbn. repeat split; auto.
  - destruct (onSave_sameEditor options s) as ((Hg & Hc & Ht & Hp) & He & _).
    rewrite Hg, Hc, Ht, Hp, He. repeat split; auto.
  - destruct (suspended s !! i) as [[options isNew] |];
      [| repeat split; auto].
    match goal with
    | |- context [onSave_resume _ ?o ?n ?d ?s0] =>
        destruct (onSave_resume_sameEditor o n d s0)
          as ((Hg & Hc & Ht & Hp) & He & _)
    end.
    rewrite Hg, Hc, Ht, Hp, He. cbn. repeat split; auto.
  - cbn. repeat split; auto.
  - cbn. repeat split; auto.
  - cbn. repeat split; auto.
  - destruct (loadDocument_fields p doc rev s)
      as ((Hg & Hc & Ht & Hp) & He & _).
    rewrite Hg, Hc, Ht, Hp. repeat split; auto.
Qed.

Lemma run_sameEditor (evs : list event) :
  ∀ s : t,
    Forall (λ e, isChange e = false) evs →
    let s' := run evs s in
    getEditorText s' = getEditorText s
    ∧ props s' = props s
    ∧ clock s' = clock s + elapsed evs
    ∧ (autosave_timer s' = autosave_timer s
       ∨ autosave_timer s' = None ∧ AutosaveTimer ∈ evs)
    ∧ (is_Some (error s) → is_Some (error s')).
Proof.
  induction evs as [ | e evs IH]; intros s Hquiet; cbv zeta.
  - cbn. rewrite Nat.add_0_r. repeat split; auto.
  - inversion Hquiet as [ | ? ? He Hevs]; subst.
    destruct (step_sameEditor e s He) as (Hg & Hp & Hc & Ht & Herr).
    destruct (IH (step e s) Hevs) as (Hg' & Hp' & Hc' & Ht' & Herr').
    cbn [DocumentScene.run]. rewrite Hg', Hp', Hc', Hg, Hp, Hc.
    split; [reflexivity |]. split; [reflexivity |]. split; [| split].
    + destruct e; cbn [elapsed] in *; lia.
    + destruct Ht' as [-> | [-> Hin]].
      * destruct Ht as [-> | [-> ->]]; [by left |].
        right. split; [reflexivity | apply list_elem_of_here].
      * right. split; [reflexivity | by apply list_elem_of_further].
    + auto.
Qed.

(** The error survives a change event too. *)
Lemma run_error (evs : list event) :
  ∀ s : t, is_Some (error s) → is_Some (error (run evs s)).
Proof.
  induction evs as [ | e evs IH]; intros s Hs; [exact Hs |].
  cbn [DocumentScene.run]. apply IH.
  destruct (isChange e) eqn:He.
  - destruct e; try discriminate He. exact Hs.
  - by apply step_sameEditor.
Qed.

(** The handle in [viewTimeout] stays that of a timer in the log. *)
Lemma timerSet_grow (s s' : t) (l : list effect) :
  effects s' = effects s ++ l →
  viewTimeout s' = viewTimeout s →
  timerSet s → timerSet s'.
Proof.
  intros He Hv Hs i Hi. rewrite Hv in Hi.
  destruct (Hs i Hi) as [d Hd]. exists d.
  rewrite He. by apply lookup_app_l_Some.
Qed.

Lemma timerSet_same (s s' : t) :
  effects s' = effects s → viewTimeout s' = viewTimeout s →
  timerSet s → timerSet s'.
Proof.
  intros He. apply (timerSet_grow s s' []). by rewrite app_nil_r.
Qed.

Lemma loadDocument_loaded_timerSet (p : Props) (s : t) :
  timerSet s → timerSet (loadDocument_loaded p s).
Proof.
  intros Hs.
  unfold DocumentScene.loadDocument_loaded, goToDocumentCanonical.
  cbn [document set_isEmpty set_isDirty emit set_effects].
  destruct (document s) as [d |];
    repeat match goal with
           | |- context [if ?b then _ else _] => destruct b
           end;
    first
      [ apply (timerSet_same s); [reflexivity | reflexivity | exact Hs]
      | eapply (timerSet_grow s);
        [ cbn [effects emit set_effects set_isEmpty set_isDirty];
          rewrite <- ?app_assoc; reflexivity
        | reflexivity
        | exact Hs ]
      | intros i Hi; injection Hi as <-; exists d;
        cbn [effects emit set_effects set_viewTimeout set_isEmpty
             set_isDirty];
        first
          [ apply list_lookup_middle; reflexivity
          | rewrite lookup_app_l;
            [ apply list_lookup_middle; reflexivity
            | rewrite !length_app; cbn [length]; lia ] ] ].
Qed.

Lemma loadDocument_timerSet (p : Props)
    (doc : settled (option Document.t) Error)
    (rev : settled (option Revision.t) Error) (s : t) :
  timerSet s → timerSet (loadDocument p doc rev s).
Proof.
  intros Hs.
  assert (Hcall : timerSet (loadDocument_call p s)).
  { by apply (timerSet_grow s _ [DocumentsFetch
                (documentSlug (params (match_ p)))
                (shareId (params (match_ p)))]). }
  unfold DocumentScene.loadDocument, loadDocument_fetched,
    loadDocument_revision.
  destruct doc as [d | err].
  - destruct (truthy_string (revisionId (params (match_ p)))).
    + assert (Hrev : timerSet
                (emit (RevisionsFetch (documentSlug (params (match_ p)))
                         (revisionId (params (match_ p))))
                   (set_document d (loadDocument_call p s)))).
      { by eapply (timerSet_grow (loadDocument_call p s)). }
      destruct rev as [r | err].
      * apply loadDocument_loaded_timerSet.
        by apply (timerSet_same _ _ eq_refl eq_refl).
      * by apply (timerSet_same _ _ eq_refl eq_refl).
    + apply loadDocument_loaded_timerSet.
      by apply (timerSet_same (loadDocument_call p s)).
  - by apply (timerSet_same (loadDocument_call p s)).
Qed.

Lemma step_timerSet (e : event) (s : t) : timerSet s → timerSet (step e s).
Proof.
  intros Hs.
  destruct e as [txt | ms | | | options | i saved | i | | | p doc rev];
    cbn [DocumentScene.step].
  - by apply (timerSet_same s).
  - by apply (timerSet_same s).
  - unfold updateIsDirty_expire.
    destruct (updateIsDirty_due s); [| exact Hs]. cbv zeta.
    unfold updateIsDirty_body. cbn [getEditorText set_updateIsDirty_timer].
    destruct (getEditorText s); by apply (timerSet_same s).
  - unfold autosave_expire.
    destruct (due _ _ _); [| exact Hs]. unfold autosave_body.
    match goal with
    | |- context [onSave ?o ?s0] =>
        destruct (onSave_sameEditor o s0) as (_ & _ & Hv & l & Hl)
    end.
    by apply (timerSet_grow s _ l).
  - destruct (onSave_sameEditor options s) as (_ & _ & Hv & l & Hl).
    by apply (timerSet_grow s _ l).
  - destruct (suspended s !! i) as [[options isNew] |]; [| exact Hs].
    match goal with
    | |- context [onSave_resume _ ?o ?n ?d ?s0] =>
        destruct (onSave_resume_sameEditor o n d s0) as (_ & _ & Hv & l & Hl)
    end.
    by apply (timerSet_grow s _ l).
  - by apply (timerSet_same s).
  - by apply (timerSet_same s).
  - by apply (timerSet_same s).
  - by apply loadDocument_timerSet.
Qed.

Lemma run_timerSet (evs : list event) :
  ∀ s : t, timerSet s → timerSet (run evs s).
Proof.
  induction evs as [ | e evs IH]; intros s Hs; [exact Hs |].
  cbn [DocumentScene.run]. apply IH. by apply step_timerSet.
Qed.

(** The history calls made by the part of [loadDocument] after its [try]
    block, for a scene that holds document [d]. *)
Lemma loadDocument_loaded_history (p : Props) (s : t) (d : Document.t) :
  document s = Some d →
  filter (λ e, isHistory e = true) (emitted s (loadDocument_loaded p s))
  = if Document.isArchived d && isEditing matchDocumentEdit s
    then [HistoryPush (Document.url d)]
    else if bool_decide (is_Some (user (props s)))
            && negb (truthy_string (shareId (params (match_ p))))
            && negb (bool_decide (is_Some (revision s)))
            && negb (endsWith (pathname p) (lit "move"))
            && negb (strict_eq (pathname p)
                       (updateDocumentUrl (url (match_ p)) (Document.url d)))
    then [HistoryReplace
            (updateDocumentUrl (url (match_ p)) (Document.url d))]
    else [].
Proof.
  intros Hdoc.
  unfold DocumentScene.loadDocument_loaded, isEditing, goToDocumentCanonical.
  cbn [props document revision emit set_effects set_isEmpty set_isDirty
       set_viewTimeout].
  rewrite Hdoc.
  set (edit := strict_eq (path (match_ (props s))) matchDocumentEdit
               || negb (truthy_string (Document.id d))).
  destruct (Document.isArchived d), edit,
    (bool_decide (is_Some (user (props s)))),
    (truthy_string (shareId (params (match_ p)))),
    (truthy_string (Document.publishedAt d));
    cbn [andb orb negb];
    cbn [props document revision emit set_effects set_isEmpty set_isDirty
         set_viewTimeout];
    destruct (bool_decide (is_Some (revision s))),
      (endsWith (pathname p) (lit "move")),
      (strict_eq (pathname p)
         (updateDocumentUrl (url (match_ p)) (Document.url d)));
    cbn [andb orb negb];
    (erewrite DocumentSceneSpec.emitted_app;
     [| cbn [effects emit set_effects set_viewTimeout set_isEmpty
             set_isDirty];
        rewrite <- ?app_assoc; reflexivity]);
    reflexivity.
Qed.

Lemma loadDocument_loaded_redirect (p : Props) (s : t) :
  let s' := loadDocument_loaded p s in
  length (filter (λ e, isHistory e = true) (emitted s s')) ≤ 1
  ∧ ∀ to, HistoryReplace to ∈ emitted s s' →
          is_Some (user (props s))
          ∧ truthy_string (shareId (params (match_ p))) = false
          ∧ revision s' = None
          ∧ endsWith (pathname p) (lit "move") = false
          ∧ to ≠ pathname p.
Proof.
  cbv zeta.
  destruct (loadDocument_loaded_fields p s) as (_ & _ & _ & Hrev & _).
  rewrite Hrev.
  destruct (document s) as [d |] eqn:Hdoc.
  - pose proof (loadDocument_loaded_history p s d Hdoc) as Hh.
    split.
    + rewrite Hh.
      repeat match goal with
             | |- context [if ?b then _ else _] => destruct b
             end; cbn; lia.
    + intros to Hin.
      assert (Hin' : HistoryReplace to
                     ∈ filter (λ e, isHistory e = true)
                         (emitted s (loadDocument_loaded p s)))
        by (apply list_elem_of_filter; by split).
      rewrite Hh in Hin'.
      destruct (Document.isArchived d && isEditing matchDocumentEdit s).
      { apply list_elem_of_singleton in Hin'. discriminate. }
      destruct (bool_decide (is_Some (user (props s)))) eqn:Hu;
        [| by apply elem_of_nil in Hin'].
      destruct (truthy_string (shareId (params (match_ p))));
        [by apply elem_of_nil in Hin' |].
      destruct (bool_decide (is_Some (revision s))) eqn:Hr;
        [by apply elem_of_nil in Hin' |].
      destruct (endsWith (pathname p) (lit "move"));
        [by apply elem_of_nil in Hin' |].
      destruct (strict_eq (pathname p) _) eqn:Hneq;
        [by apply elem_of_nil in Hin' |].
      cbn [andb negb] in Hin'.
      apply list_elem_of_singleton in Hin'. injection Hin' as ->.
      apply bool_decide_eq_true in Hu. apply bool_decide_eq_false in Hr.
      apply DocumentSceneSpec.strict_eq_false in Hneq.
      repeat split; try done.
      destruct (revision s); [| done]. exfalso. apply Hr. by eexists.
  - assert (He : emitted s (loadDocument_loaded p s) = []).
    { apply DocumentSceneSpec.emitted_same_log.
      unfold DocumentScene.loadDocument_loaded.
      cbn [document set_isEmpty set_isDirty]. by rewrite Hdoc. }
    rewrite He. split; [cbn; lia |].
    intros to Hin. by apply elem_of_nil in Hin.
Qed.

End Frames.

(** ** The debounced autosave *)

(** X10.  After a change event followed by events none of which is a change:
    an expiry of the autosave timer does nothing as long as less than
    [AUTOSAVE_DELAY] = 3000 ms have passed since the change.  Once they have
    passed, and if the autosave has not run already, the expiry calls
    [onSave] with [done: false, autosave: true], once: a further expiry does
    nothing until the next change. *)
Theorem autosave_debounced (matchDocumentEdit : jsstring)
    (documentEditUrl : Document.t → jsstring)
    (updateDocumentUrl : jsstring → jsstring → jsstring)
    (s : t) (txt : jsstring) (evs : list event) :
  Forall (λ e, isChange e = false) evs →
  let s1 :=
    run matchDocumentEdit documentEditUrl updateDocumentUrl
      (Change txt :: evs) s in
  let s2 :=
    step matchDocumentEdit documentEditUrl updateDocumentUrl
      AutosaveTimer s1 in
  (elapsed evs < 3000 → s2 = s1)
  ∧ (AutosaveTimer ∉ evs → 3000 ≤ elapsed evs →
     s2 = onSave {| done := Some false; publish := None;
                    autosave := Some true |}
            (set_autosave_timer None s1)
     ∧ step matchDocumentEdit documentEditUrl updateDocumentUrl
         AutosaveTimer s2 = s2).
Proof.
  intros Hquiet s1 s2. change 3000 with AUTOSAVE_DELAY.
  destruct (run_sameEditor matchDocumentEdit documentEditUrl
              updateDocumentUrl evs (onChange txt s) Hquiet)
    as (_ & _ & Hclock & Htimer & _).
  change (run matchDocumentEdit documentEditUrl updateDocumentUrl evs
            (onChange txt s)) with s1 in *.
  cbn [onChange clock autosave_timer set_autosave_timer
       set_updateIsDirty_timer set_getEditorText] in Hclock, Htimer.
  split.
  - intros Hearly. subst s2. cbn [step]. unfold autosave_expire.
    destruct Htimer as [-> | [-> _]]; [| reflexivity].
    rewrite Hclock. cbn [due].
    destruct (Nat.leb_spec (clock s + AUTOSAVE_DELAY) (clock s + elapsed evs));
      [lia | reflexivity].
  - intros Hnotrun Hlate.
    destruct Htimer as [Ht | [_ Hin]]; [| contradiction].
    assert (Hs2 : s2 = autosave_body (set_autosave_timer None s1)).
    { subst s2. cbn [step]. unfold autosave_expire.
      rewrite Ht, Hclock. cbn [due].
      destruct (Nat.leb_spec (clock s + AUTOSAVE_DELAY)
                  (clock s + elapsed evs)); [reflexivity | lia]. }
    split; [exact Hs2 |].
    cbn [step]. unfold autosave_expire.
    assert (Hnone : autosave_timer s2 = None).
    { rewrite Hs2. unfold autosave_body.
      match goal with
      | |- context [onSave ?o ?s0] =>
          destruct (onSave_sameEditor o s0) as ((_ & _ & Hkeep & _) & _)
      end.
      by rewrite Hkeep. }
    by rewrite Hnone.
Qed.

(** The editor reports "# Title\\nBody" over a document saved as "# Title":
    the autosave timer does nothing at 2999 ms, and at 3000 ms it saves the
    new text with the autosave option. *)
Lemma autosave_debounced_witness :
  let s := editing (viewing "title-abc") published "# Title" in
  let txt := lit "# Title" ++ [10%N] ++ lit "Body" in
  let early := run editPath editUrl sameUrl [Change txt; Elapse 2999] s in
  let late :=
    run editPath editUrl sameUrl
      [Change txt; Elapse 500; UpdateIsDirtyTimer; Elapse 2500] s in
  step editPath editUrl sameUrl AutosaveTimer early = early
  ∧ emitted late (step editPath editUrl sameUrl AutosaveTimer late)
    = [DocumentSave (Document.set_text txt published) auto].
Proof.
  intros s txt early late. split.
  - assert (Hquiet : Forall (λ e, isChange e = false) [Elapse 2999])
      by (repeat constructor).
    destruct (autosave_debounced editPath editUrl sameUrl s txt
                [Elapse 2999] Hquiet) as (Hearly & _).
    apply Hearly. vm_compute. lia.
  - assert (Hquiet : Forall (λ e, isChange e = false)
                       [Elapse 500; UpdateIsDirtyTimer; Elapse 2500])
      by (repeat constructor).
    destruct (autosave_debounced editPath editUrl sameUrl s txt
                [Elapse 500; UpdateIsDirtyTimer; Elapse 2500] Hquiet)
      as (_ & Hlate).
    destruct Hlate as [Hrun _].
    + intros Hin.
      repeat (apply elem_of_cons in Hin as [Hin | Hin];
              [discriminate Hin |]).
      by apply elem_of_nil in Hin.
    + vm_compute. lia.
    + fold late in Hrun. rewrite Hrun. reflexivity.
Defined.

(** ** The error view *)

(** X11.  The error field is never cleared: once a load has failed, every
    later event, a later successful load included, leaves an error in place,
    and [render] keeps returning the error view (not-found when online,
    offline otherwise), whether or not a document and the editor are
    there. *)
Theorem error_is_sticky (matchDocumentEdit : jsstring)
    (documentEditUrl : Document.t → jsstring)
    (updateDocumentUrl : jsstring → jsstring → jsstring)
    (s : t) (evs : list event) (online editorLoaded : bool) :
  is_Some (error s) →
  let s' := run matchDocumentEdit documentEditUrl updateDocumentUrl evs s in
  is_Some (error s')
  ∧ render_screen online editorLoaded s'
    = if online then Error404 else ErrorOffline.
Proof.
  intros Hs s'.
  pose proof (run_error matchDocumentEdit documentEditUrl updateDocumentUrl
                evs s Hs) as [err Herr].
  fold s' in Herr. split; [by exists err |].
  unfold render_screen. by rewrite Herr.
Qed.

Lemma error_is_sticky_witness :
  let p := viewing "title-abc" in
  let failed :=
    loadDocument editPath sameUrl p (Rejected (lit "offline"))
      (Resolved None) (initial p None) in
  let s' :=
    run editPath editUrl sameUrl
      [Load p (Resolved (Some published)) (Resolved None)] failed in
  document s' = Some published
  ∧ render_screen true true s' = Error404.
Proof.
  intros p failed s'. split; [reflexivity |].
  assert (Hfailed : is_Some (error failed)) by (by eexists).
  exact (proj2 (error_is_sticky editPath editUrl sameUrl failed
                  [Load p (Resolved (Some published)) (Resolved None)]
                  true true Hfailed)).
Defined.

(** ** Unmounting *)

(** X12.  Whatever has happened to a scene since its construction, the
    handle that [componentWillUnmount] passes to [clearTimeout], when there
    is one, is that of a timer set by a load: a call of [setTimeout] with the
    [view] method of a document and a delay of 3000 ms. *)
Theorem unmount_clears_a_view_timer (matchDocumentEdit : jsstring)
    (documentEditUrl : Document.t → jsstring)
    (updateDocumentUrl : jsstring → jsstring → jsstring)
    (p : Props) (cached : option Document.t) (evs : list event) (i : nat) :
  let s :=
    run matchDocumentEdit documentEditUrl updateDocumentUrl evs
      (initial p cached) in
  componentWillUnmount s = Some i →
  ∃ d, effects s !! i = Some (SetTimeout (DocumentView d) 3000).
Proof.
  intros s Hi.
  assert (Hinit : timerSet (initial p cached)) by (intros j Hj; discriminate).
  exact (run_timerSet matchDocumentEdit documentEditUrl updateDocumentUrl
           evs _ Hinit i Hi).
Qed.

Lemma unmount_clears_a_view_timer_witness :
  let p := viewing "title-abc" in
  let s :=
    run editPath editUrl sameUrl
      [Load p (Resolved (Some published)) (Resolved None);
       Change (lit "# Title, changed"); Save explicit]
      (initial p None) in
  componentWillUnmount s = Some 2
  ∧ ∃ d, effects s !! 2 = Some (SetTimeout (DocumentView d) 3000).
Proof.
  intros p s. split; [reflexivity |].
  exact (unmount_clears_a_view_timer editPath editUrl sameUrl p None
           [Load p (Resolved (Some published)) (Resolved None);
            Change (lit "# Title, changed"); Save explicit] 2 eq_refl).
Defined.

(** ** Redirects of a load *)

(** X13.  A load makes at most one call to the history.  It replaces the
    URL only for a signed-in user, on a route without share id, when no
    revision is shown and the path does not end in "move", and only with a
    URL other than the current path. *)
Theorem load_history_policy (matchDocumentEdit : jsstring)
    (updateDocumentUrl : jsstring → jsstring → jsstring)
    (p : Props) (s : t)
    (doc : settled (option Document.t) Error)
    (rev : settled (option Revision.t) Error) :
  let s' := loadDocument matchDocumentEdit updateDocumentUrl p doc rev s in
  length (filter (λ e, isHistory e = true) (emitted s s')) ≤ 1
  ∧ ∀ to, HistoryReplace to ∈ emitted s s' →
          is_Some (user (props s))
          ∧ truthy_string (shareId (params (match_ p))) = false
          ∧ revision s' = None
          ∧ endsWith (pathname p) (lit "move") = false
          ∧ to ≠ pathname p.
Proof.
  cbv zeta.
  assert (Hloaded : ∀ (s0 : t) (l : list effect),
            effects s0 = effects s ++ l →
            props s0 = props s →
            Forall (λ e, isHistory e = false) l →
            let s' := loadDocument_loaded matchDocumentEdit updateDocumentUrl
                        p s0 in
            length (filter (λ e, isHistory e = true) (emitted s s')) ≤ 1
            ∧ ∀ to, HistoryReplace to ∈ emitted s s' →
                    is_Some (user (props s))
                    ∧ truthy_string (shareId (params (match_ p))) = false
                    ∧ revision s' = None
                    ∧ endsWith (pathname p) (lit "move") = false
                    ∧ to ≠ pathname p).
  { intros s0 l Hl Hp Hnone. cbv zeta.
    rewrite (DocumentSceneSpec.emitted_loadDocument_loaded
               matchDocumentEdit updateDocumentUrl p s s0 l Hl).
    destruct (loadDocument_loaded_redirect matchDocumentEdit
                updateDocumentUrl p s0) as [Hlen Hrep].
    rewrite Hp in Hrep.
    assert (Hfl : filter (λ e, isHistory e = true) l = []).
    { clear -Hnone. induction Hnone as [ | e l He _ IH]; [done |].
      rewrite filter_cons_False by (rewrite He; discriminate). exact IH. }
    split.
    - by rewrite filter_app, Hfl.
    - intros to Hin. apply elem_of_app in Hin as [Hin | Hin].
      + exfalso. rewrite Forall_forall in Hnone.
        specialize (Hnone _ Hin). discriminate Hnone.
      + by apply Hrep. }
  unfold loadDocument, loadDocument_fetched, loadDocument_revision.
  destruct doc as [d | err].
  - destruct (truthy_string (revisionId (params (match_ p)))).
    + destruct rev as [r | err].
      * eapply Hloaded; [| reflexivity |].
        -- cbn [effects emit set_effects set_revision set_document
                loadDocument_call]. rewrite <- app_assoc. reflexivity.
        -- by repeat constructor.
      * erewrite DocumentSceneSpec.emitted_app.
        2: { cbn [effects set_error emit set_effects set_document
                  loadDocument_call]. rewrite <- app_assoc. reflexivity. }
        split; [exact (Nat.le_0_l 1) |]. intros to Hin.
        repeat (apply elem_of_cons in Hin as [Hin | Hin];
                [discriminate Hin |]).
        by apply elem_of_nil in Hin.
    + eapply Hloaded; [reflexivity | reflexivity | by repeat constructor].
  - erewrite DocumentSceneSpec.emitted_app by reflexivity.
    split; [exact (Nat.le_0_l 1) |]. intros to Hin.
    repeat (apply elem_of_cons in Hin as [Hin | Hin]; [discriminate Hin |]).
    by apply elem_of_nil in Hin.
Qed.

(** A signed-in user opens a published document under an outdated path: the
    URL is replaced by that of the document. *)
Lemma load_history_policy_witness :
  let p := viewing "old-title-abc" in
  let s := initial p None in
  let s' := loadDocument editPath sameUrl p (Resolved (Some published))
              (Resolved None) s in
  HistoryReplace (lit "/doc/title-abc") ∈ emitted s s'
  ∧ revision s' = None
  ∧ lit "/doc/title-abc" ≠ pathname p.
Proof.
  intros p s s'.
  assert (Hin : HistoryReplace (lit "/doc/title-abc") ∈ emitted s s').
  { vm_compute. do 3 apply list_elem_of_further. apply list_elem_of_here. }
  split; [exact Hin |].
  destruct (load_history_policy editPath sameUrl p s
              (Resolved (Some published)) (Resolved None)) as [_ Hrep].
  destruct (Hrep _ Hin) as (_ & _ & Hrev & _ & Hne).
  split; [exact Hrev | exact Hne].
Defined.

(** X14.  A load that gets through its [try] block clears [isDirty] and
    [isEmpty] without looking at the editor: whatever text the editor holds,
    the scene is then neither dirty nor empty and the discard prompt is off,
    while the editor callback and the error field are left as they were. *)
Theorem load_resets_flags (matchDocumentEdit : jsstring)
    (updateDocumentUrl : jsstring → jsstring → jsstring)
    (p : Props) (s : t)
    (doc : settled (option Document.t) Error)
    (rev : settled (option Revision.t) Error) :
  loadSucceeded p doc rev = true →
  let s' := loadDocument matchDocumentEdit updateDocumentUrl p doc rev s in
  isDirty s' = false
  ∧ isEmpty s' = false
  ∧ promptDiscard matchDocumentEdit s' = false
  ∧ getEditorText s' = getEditorText s
  ∧ error s' = error s.
Proof.
  intros Hok s'.
  destruct (loadDocument_fields matchDocumentEdit updateDocumentUrl p doc rev
              s) as ((Hg & _) & _ & Hflags).
  destruct (Hflags Hok) as (He & Hd & Hm).
  fold s' in Hg, He, Hd, Hm.
  repeat split; try assumption.
  unfold promptDiscard. rewrite Hd. by rewrite andb_false_r.
Qed.

Lemma load_resets_flags_witness :
  let p := viewing "title-abc" in
  let s := set_isDirty true (editing p published "# Title, changed") in
  let s' := loadDocument editPath sameUrl p (Resolved (Some published))
              (Resolved None) s in
  isDirty s = true ∧ isDirty s' = false
  ∧ getEditorText s' = Some (lit "# Title, changed").
Proof.
  intros p s s'. split; [reflexivity |].
  destruct (load_resets_flags editPath sameUrl p s
              (Resolved (Some published)) (Resolved None) eq_refl)
    as (Hd & _ & _ & Hg & _).
  split; [exact Hd | exact Hg].
Defined.

(** ** Shortcuts *)

(** X17.  Without a loaded document (while it loads, or after a failed load
    with nothing cached) the shortcuts for move, edit, history and publish,
    a save, and [componentDidUpdate] leave the scene as it is: nothing is
    pushed, saved or fetched.  With a document but without the update
    ability, the move and edit shortcuts push nothing either. *)
Theorem nothing_without_document
    (documentMoveUrl documentEditUrl documentHistoryUrl : Document.t → jsstring)
    (canUpdate : option jsstring → bool) (s : t) :
  (document s = None →
     snd (goToMove documentMoveUrl canUpdate s) = s
     ∧ snd (goToEdit documentEditUrl canUpdate s) = s
     ∧ snd (goToHistory documentHistoryUrl s) = s
     ∧ snd (onPublish s) = s
     ∧ goToDocumentCanonical s = s
     ∧ (∀ options, onSave options s = s)
     ∧ (∀ hasPolicy, componentDidUpdate hasPolicy s = s))
  ∧ (∀ d, document s = Some d →
          canUpdate (Document.id d) = false →
          snd (goToMove documentMoveUrl canUpdate s) = s
          ∧ snd (goToEdit documentEditUrl canUpdate s) = s).
Proof.
  split.
  - intros Hdoc.
    unfold goToMove, goToEdit, goToHistory, onPublish, goToDocumentCanonical,
      componentDidUpdate, onSave, onSave_call.
    rewrite Hdoc. repeat split.
  - intros d Hdoc Hcan. unfold goToMove, goToEdit.
    rewrite Hdoc, Hcan. split; reflexivity.
Qed.

Lemma nothing_without_document_witness :
  let p := viewing "title-abc" in
  let failed :=
    loadDocument editPath sameUrl p (Rejected (lit "offline"))
      (Resolved None) (initial p None) in
  snd (goToEdit editUrl (λ _, true) failed) = failed
  ∧ onSave explicit failed = failed
  ∧ componentDidUpdate false failed = failed.
Proof.
  intros p failed.
  destruct (nothing_without_document editUrl editUrl editUrl (λ _, true)
              failed) as [Hnone _].
  destruct (Hnone eq_refl) as (_ & He & _ & _ & _ & Hs & Hu).
  split; [exact He |]. split; [apply Hs | apply Hu].
Defined.

(** ** Publishing *)

(** X15.  The publish shortcut does nothing for a document that is already
    published.  For an unpublished document with no save in flight and a
    text other than "#", it calls [document.save] once, with the editor text
    and the options [publish: true, done: true], and sets [isPublishing] and
    [isSaving]; when that save resolves, the scene pushes the URL of the
    resulting document (not its edit URL, even for a document that had no
    id), registers it as the active one, and clears the flags. *)
Theorem publish_flow (matchDocumentEdit : jsstring)
    (documentEditUrl : Document.t → jsstring)
    (updateDocumentUrl : jsstring → jsstring → jsstring)
    (s : t) (d saved : Document.t) :
  document s = Some d →
  (truthy_string (Document.publishedAt d) = true → onPublish s = (true, s))
  ∧ (truthy_string (Document.publishedAt d) = false →
     Document.isSaving d = false →
     trim (currentText s d) ≠ lit "#" →
     let s1 := snd (onPublish s) in
     let s2 :=
       step matchDocumentEdit documentEditUrl updateDocumentUrl
         (SaveResolved (length (suspended s)) saved) s1 in
     emitted s s1
       = [DocumentSave (Document.set_text (currentText s d) d) publishOptions]
     ∧ isPublishing s1 = true
     ∧ isSaving s1 = true
     ∧ emitted s1 s2
         = [HistoryPush (Document.url saved); SetActiveDocument saved]
     ∧ isPublishing s2 = false
     ∧ isSaving s2 = false
     ∧ isDirty s2 = false
     ∧ suspended s2 = suspended s).
Proof.
  intros Hdoc. split.
  - intros Hpub. unfold onPublish. by rewrite Hdoc, Hpub.
  - intros Hpub Hidle Hhash s1 s2.
    apply DocumentSceneSpec.strict_eq_false in Hhash.
    assert (Hs1 : s1 = set_suspended
                         (suspended s
                          ++ [(publishOptions,
                               negb (truthy_string (Document.id d)))])
                         (emit (DocumentSave
                                  (Document.set_text (currentText s d) d)
                                  publishOptions)
                            (set_isPublishing true
                               (set_isSaving true
                                  (set_document
                                     (Some (Document.set_text
                                              (currentText s d) d)) s))))).
    { subst s1. unfold onPublish. rewrite Hdoc, Hpub. cbn [snd].
      unfold onSave, onSave_call. rewrite Hdoc, Hidle, Hhash. reflexivity. }
    assert (Hs2 : s2 = onSave_resume documentEditUrl publishOptions
                         (negb (truthy_string (Document.id d))) saved
                         (set_suspended (suspended s) s1)).
    { subst s2. cbn [step]. rewrite Hs1 at 1. cbn [suspended set_suspended].
      rewrite list_lookup_middle by reflexivity.
      rewrite Hs1 at 1. cbn [suspended set_suspended].
      by rewrite delete_middle, app_nil_r. }
    split; [rewrite Hs1; by apply DocumentSceneSpec.emitted_app |].
    split; [by rewrite Hs1 |]. split; [by rewrite Hs1 |].
    rewrite Hs2. unfold onSave_resume. cbn [done publishOptions truthy_flag].
    split; [| repeat split].
    apply DocumentSceneSpec.emitted_app. cbn. by rewrite <- app_assoc.
Qed.

Lemma publish_flow_witness :
  let s := editing (viewing "new") unsaved "# Title" in
  let s1 := snd (onPublish s) in
  let s2 := step editPath editUrl sameUrl (SaveResolved 0 published) s1 in
  isPublishing s1 = true
  ∧ emitted s1 s2
    = [HistoryPush (lit "/doc/title-abc"); SetActiveDocument published].
Proof.
  intros s s1 s2.
  destruct (publish_flow editPath editUrl sameUrl s unsaved published eq_refl)
    as [_ Hflow].
  destruct (Hflow eq_refl eq_refl) as (_ & Hp & _ & He & _).
  - vm_compute. discriminate.
  - split; [exact Hp | exact He].
Defined.

(** ** Whitespace around the text *)

Lemma trimStart_whitespace (ws s : jsstring) :
  Forall (λ c, isTrimmed c = true) ws → trimStart (ws ++ s) = trimStart s.
Proof.
  induction 1 as [ | c ws Hc _ IH]; [done |].
  cbn [app trimStart]. by rewrite Hc.
Qed.

Lemma trimStart_nil (s : jsstring) :
  trimStart s = [] → Forall (λ c, isTrimmed c = true) s.
Proof.
  induction s as [ | c s IH]; [constructor |].
  cbn [trimStart]. destruct (isTrimmed c) eqn:Hc; [| discriminate].
  intros H. constructor; [exact Hc | by apply IH].
Qed.

Lemma trimStart_app (s t : jsstring) :
  trimStart s ≠ [] → trimStart (s ++ t) = trimStart s ++ t.
Proof.
  induction s as [ | c s IH]; [done |].
  cbn [app trimStart]. destruct (isTrimmed c); [exact IH | done].
Qed.

Lemma trimEnd_whitespace (s ws : jsstring) :
  Forall (λ c, isTrimmed c = true) ws → trimEnd (s ++ ws) = trimEnd s.
Proof.
  intros Hws. unfold trimEnd. rewrite rev_app_distr.
  rewrite trimStart_whitespace; [done |].
  rewrite Forall_forall in *. intros c Hc. apply Hws.
  apply list_elem_of_In. apply in_rev. by apply list_elem_of_In.
Qed.

Lemma trim_whitespace (ws1 s ws2 : jsstring) :
  Forall (λ c, isTrimmed c = true) ws1 →
  Forall (λ c, isTrimmed c = true) ws2 →
  trim (ws1 ++ s ++ ws2) = trim s.
Proof.
  intros H1 H2. unfold trim. rewrite trimStart_whitespace by exact H1.
  destruct (trimStart s) as [ | c s'] eqn:Hs.
  - apply trimStart_nil in Hs.
    assert (Hall : Forall (λ c, isTrimmed c = true) (s ++ ws2))
      by (by apply Forall_app).
    rewrite <- (app_nil_r (s ++ ws2)).
    by rewrite trimStart_whitespace.
  - rewrite trimStart_app by (rewrite Hs; discriminate).
    rewrite Hs. by apply trimEnd_whitespace.
Qed.

(** X16.  White space and line breaks added before and after the text of the
    document are no change: with such a text in the editor the dirty-check
    reports a scene that is not dirty, and the function run by the autosave
    timer does nothing. *)
Theorem surrounding_whitespace_is_no_change (s : t) (d : Document.t)
    (ws1 ws2 : jsstring) :
  document s = Some d →
  Forall (λ c, isTrimmed c = true) ws1 →
  Forall (λ c, isTrimmed c = true) ws2 →
  getEditorText s = Some (ws1 ++ Document.text d ++ ws2) →
  (∃ s', updateIsDirty_body s = Some s' ∧ isDirty s' = false)
  ∧ autosave_body s = s.
Proof.
  intros Hdoc H1 H2 Hget.
  pose proof (trim_whitespace ws1 (Document.text d) ws2 H1 H2) as Htrim.
  split.
  - unfold updateIsDirty_body. rewrite Hget. eexists.
    split; [reflexivity |]. cbn. rewrite Hdoc, Htrim.
    unfold strict_eq. by rewrite bool_decide_eq_true_2.
  - unfold autosave_body, onSave, onSave_call, currentText.
    rewrite Hdoc, Hget, Htrim.
    destruct (Document.isSaving d); [done |].
    destruct (strict_eq _ _); [done |].
    cbn [autosave truthy_flag andb]. unfold strict_eq.
    by rewrite bool_decide_eq_true_2.
Qed.

Lemma surrounding_whitespace_is_no_change_witness :
  let txt := [32%N; 9%N] ++ lit "# Title" ++ [10%N; 160%N; 8233%N] in
  let s :=
    set_getEditorText (Some txt)
      (editing (viewing "title-abc") published "") in
  autosave_body s = s.
Proof.
  intros txt s.
  refine (proj2 (surrounding_whitespace_is_no_change s published
                   [32%N; 9%N] [10%N; 160%N; 8233%N] eq_refl _ _ eq_refl));
    repeat constructor.
Defined.

End DocumentSceneRuns.
